(** * Anonymizer backend: PDF text extraction, PII detection and redaction

    A shallow embedding of [backend/logic/process_pdf.py] and of the request
    handler of [backend/main.py].

    The Python code is glue around four libraries (pdfplumber, spaCy, [re],
    PyMuPDF) and the file system.  The glue is embedded as it is written;
    what a library computes is a parameter of the section that uses it, and
    every library call may raise.  Log output ([print]) is left out. *)

From Stdlib Require Import NArith.
From stdpp Require Import gmap list strings.

Set Default Proof Using "Type".

(** ** Python values *)

(** A Python [str] is a sequence of Unicode code points. *)
Abbreviation char := N (only parsing).
Abbreviation str := (list N) (only parsing).

(** The raw contents of a file. *)
Abbreviation bytes := (list N) (only parsing).

(** [lit "abc"] is the Python literal ["abc"] (ASCII literals only). *)
Definition lit (a : String.string) : str :=
  map Ascii.N_of_ascii (String.list_ascii_of_string a).
Arguments lit a%_string.

(** The one-character string ["\n"]. *)
Definition newline : str := [10%N].

(** Truth value of a [str]: the empty string is falsy. *)
Definition str_truthy (t : str) : bool :=
  match t with [] => false | _ :: _ => true end.

(** Truth value of an expression that is a [str] or [None]. *)
Definition truthy (t : option str) : bool :=
  match t with None => false | Some t => str_truthy t end.

(** ** Exceptions *)

(** The outcome of a computation that may raise.  Every handler in the code
    is [except Exception] and only prints the exception, so the exception
    carries no payload. *)
Inductive res (A : Type) : Type :=
| Ok (a : A)
| Raise.
Arguments Ok {A} a.
Arguments Raise {A}.

Definition bind {A B} (m : res A) (f : A -> res B) : res B :=
  match m with Ok a => f a | Raise => Raise end.

(** [try: body except: handler]. *)
Definition try_except {A} (body : res A) (handler : res A) : res A :=
  match body with Ok a => Ok a | Raise => handler end.

Declare Scope res_scope.
Delimit Scope res_scope with res.
Notation "'do' x <- m ; f" := (bind m (fun x => f))
  (at level 10, x name, m at level 100, f at level 200) : res_scope.
Notation "'try' b 'except' h" := (try_except b h)
  (at level 10, b at level 100, h at level 200) : res_scope.
Local Open Scope res_scope.

(** [list(set(l))]: the distinct elements of [l], in the order the set
    happens to iterate them. *)
Definition list_set (l : list str) : list str :=
  elements (list_to_set l : gset str).

(** ** Pattern detector *)

Module Re.

(** The fragment of [re] the code uses: a pattern is a sequence of
    character classes, each matching exactly one character.  [\d] on a
    [str] pattern matches every Unicode decimal digit; that table is the
    parameter [decimal]. *)
Inductive cls : Type :=
| OneOf (cs : list char)      (* [STFG] *)
| Range (lo hi : char)        (* [A-Z] *)
| Digit.                      (* \d *)

(** The Unicode table behind [\d]. *)
Class UnicodeData := { decimal : char -> bool }.

Section Matching.
Context `{!UnicodeData}.

Definition cls_match (k : cls) (c : char) : bool :=
  match k with
  | OneOf cs => bool_decide (c ∈ cs)
  | Range lo hi => (lo <=? c)%N && (c <=? hi)%N
  | Digit => decimal c
  end.

(** Match the pattern at the start of [t]; the matched text, if any. *)
Fixpoint match_here (p : list cls) (t : str) : option str :=
  match p with
  | [] => Some []
  | k :: p' =>
      match t with
      | [] => None
      | c :: t' =>
          if cls_match k c
          then option_map (cons c) (match_here p' t')
          else None
      end
  end.

(** The scan of [re.findall]: left to right, a match consumes its
    characters, otherwise the cursor advances by one.  [skip] counts
    the characters of the last match still to be stepped over. *)
Fixpoint scan (p : list cls) (skip : nat) (t : str) : list str :=
  match t with
  | [] => []
  | _ :: t' =>
      match skip with
      | S k => scan p k t'
      | O =>
          match match_here p t with
          | Some m => m :: scan p (pred (length m)) t'
          | None => scan p 0 t'
          end
      end
  end.

(** [re.findall(p, t)] for a pattern that cannot match the empty
    string. *)
Definition findall (p : list cls) (t : str) : list str := scan p 0 t.

End Matching.
End Re.

(** [r"[STFG]\d{7}[A-Z]"] *)
Definition NRIC_REGEX_PATTERN : list Re.cls :=
  [Re.OneOf (lit "STFG")] ++ replicate 7 Re.Digit ++ [Re.Range 65 90]%N.


Section PatternDetector.
Context `{!Re.UnicodeData}.

Definition find_nric_matches (text : option str) : list str :=
  if negb (truthy text) then []
  else
    let nric_matches :=
      Re.findall NRIC_REGEX_PATTERN (default [] text) in
    let unique_nrics := list_set nric_matches in
    unique_nrics.

(** The shape in words: one of the four letters S, T, F, G, then exactly
    seven decimal digits, then one letter of A..Z. *)
Definition nric_shape (m : str) : Prop :=
  ∃ (a : char) (ds : list char) (z : char),
    m = a :: ds ++ [z] ∧
    a ∈ lit "STFG" ∧
    length ds = 7 ∧ Forall (λ d, Re.decimal d = true) ds ∧
    (65 ≤ z ∧ z ≤ 90)%N.

End PatternDetector.


(** ** File system *)

(** What a path names.  [os.path.exists] is true of both kinds; only a
    regular file can be opened for reading, and opening a directory for
    writing raises.  The file system maps a path, as it is written, to
    what it names. *)
Inductive node : Type :=
| File (content : bytes)
| Dir.

Abbreviation FS := (gmap (list N) node).

(** What this map does not record decides, too, whether a write to a path
    that the caller has chosen goes through: whether the parent directory
    exists and can be written to, whether two spellings name one file,
    whether a directory is empty.  These answers of the operating system
    are parameters. *)
Class Os := {
  (** [open(path, "w")] or [open(path, "wb")] of a path that is not a
      directory can create or empty the file *)
  can_open_w : FS -> str -> bool;
  (** [os.path.samefile(src, dst)] for two paths that are written
      differently *)
  same_file : FS -> str -> str -> bool;
  (** MuPDF can remove what is at the path (a file, or a directory that is
      empty) and create the file there *)
  can_save : FS -> str -> bool;
}.

Definition path_exists (fs : FS) (path : str) : bool :=
  bool_decide (is_Some (fs !! path)).

(** [open(path, "rb").read()] *)
Definition read_file (fs : FS) (path : str) : res bytes :=
  match fs !! path with
  | Some (File b) => Ok b
  | _ => Raise
  end.

(** [open(path, "wb").write(b)] where the directory of the path is there
    to be written to, as [TEMP_DIR] is for the request handler, which
    creates it when the module is loaded: only a directory at the path
    itself makes the [open] raise. *)
Definition write_file (fs : FS) (path : str) (b : bytes) : res FS :=
  match fs !! path with
  | Some Dir => Raise
  | _ => Ok (<[path := File b]> fs)
  end.

(** [open(path, "w")] of any path: creates the file or empties it. *)
Definition open_w `{!Os} (fs : FS) (path : str) : res FS :=
  if can_open_w fs path then write_file fs path [] else Raise.

(** [shutil.copyfile(src, dst)]: raises [SameFileError] when both name the
    same file, before anything is opened; then [src] is opened for
    reading and [dst] for writing.  A copy that breaks off half-way is not
    modelled. *)
Definition copyfile `{!Os} (fs : FS) (src dst : str) : res FS :=
  if bool_decide (src = dst) || same_file fs src dst then Raise
  else
    do b <- read_file fs src;
    do fs <- open_w fs dst;
    write_file fs dst b.

(** [os.remove(path)] *)
Definition remove (fs : FS) (path : str) : res FS :=
  match fs !! path with
  | Some (File _) => Ok (delete path fs)
  | _ => Raise
  end.

(** The separator of [posixpath]. *)
Definition sep : N := 47%N.

(** [os.path.join(a, b)] of [posixpath]. *)
Definition path_join (a b : str) : str :=
  if bool_decide (head b = Some sep) then b
  else if bool_decide (a = [] ∨ last a = Some sep) then a ++ b
  else a ++ sep :: b.

(** ** Text extractor *)

(** pdfplumber, as far as the code uses it. *)
Class Pdfplumber := {
  plumber_page : Type;
  (** the pages of [pdfplumber.open(path)], from the contents of the file *)
  pdfplumber_parse : bytes -> res (list plumber_page);
  (** [page.extract_text(x_tolerance=2)]: a [str] or [None] *)
  extract_text : plumber_page -> res (option str);
}.

Section Extractor.
Context `{!Pdfplumber}.

Definition pdfplumber_open (fs : FS) (path : str) : res (list plumber_page) :=
  do b <- read_file fs path; pdfplumber_parse b.

(** The loop over [pdf.pages], started with the text gathered so far. *)
Fixpoint extract_pages (pages : list plumber_page) (full_text : str)
  : res str :=
  match pages with
  | [] => Ok full_text
  | page :: pages' =>
      do text <- extract_text page;
      if truthy text
      then extract_pages pages' (full_text ++ default [] text ++ newline)
      else extract_pages pages' full_text
  end.

(** [None] of Python is [None] here; the function's own exceptions, if it
    had any, would be [Raise]. *)
Definition extract_text_from_pdf (fs : FS) (pdf_file_path : str)
  : res (option str) :=
  if negb (path_exists fs pdf_file_path) then Ok None
  else
    let full_text := [] in
    try (do pages <- pdfplumber_open fs pdf_file_path;
         do full_text <- extract_pages pages full_text;
         Ok (Some full_text))
    except Ok None.

End Extractor.

(** What one page adds to the extracted text: its text and a newline, or
    nothing when it has no text. *)
Definition page_contribution (text : option str) : str :=
  if truthy text then default [] text ++ newline else [].

(** ** Entity detector *)

(** An entity of [doc.ents]. *)
Record Span : Type := { span_text : str; span_label_ : str }.

(** spaCy's loaded model: [nlp(text).ents]. *)
Class Spacy := { nlp : str -> res (list Span) }.

Definition PII_ENTITY_TYPES : list str :=
  [lit "PERSON"; lit "GPE"; lit "LOC"; lit "ORG"; lit "DATE"].

Section EntityDetector.
Context `{!Spacy}.

(** The loop over [doc.ents], appending to [pii_list]. *)
Fixpoint collect_pii (ents : list Span) (pii_list : list str) : list str :=
  match ents with
  | [] => pii_list
  | entity :: ents' =>
      if bool_decide (span_label_ entity ∈ PII_ENTITY_TYPES)
      then collect_pii ents' (pii_list ++ [span_text entity])
      else collect_pii ents' pii_list
  end.

Definition find_pii_entities (text : option str) : res (list str) :=
  if negb (truthy text) then Ok []
  else
    do ents <- nlp (default [] text);
    let pii_list := collect_pii ents [] in
    let unique_pii := list_set pii_list in
    Ok unique_pii.

End EntityDetector.

(** ** Aggregator *)

(** [list(set(spacy_pii) | set(nric_pii))], as written in the request
    handler and in the script's main block. *)
Definition combine_pii (spacy_pii nric_pii : list str) : list str :=
  elements ((list_to_set spacy_pii : gset str) ∪ list_to_set nric_pii).

(** ** Redactor *)

(** PyMuPDF, as far as the code uses it.  A document is the list of its
    pages; the calls that change a page in place return the changed page.
    Closing an open document does not raise and has no effect on the file
    system, so [doc.close()] is left out. *)
Class Fitz := {
  fitz_page : Type;
  fitz_rect : Type;
  (** the pages of [fitz.open(path)], from the contents of the file *)
  fitz_parse : bytes -> res (list fitz_page);
  (** [page.search_for(text)] *)
  search_for : fitz_page -> str -> res (list fitz_rect);
  (** [page.add_redact_annot(inst, fill=(0, 0, 0))] *)
  add_redact_annot : fitz_page -> fitz_rect -> res fitz_page;
  (** [page.apply_redactions()] *)
  apply_redactions : fitz_page -> res fitz_page;
  (** the bytes [doc.save(path, garbage=4, deflate=True)] writes *)
  fitz_tobytes : list fitz_page -> res bytes;
}.

Section Redactor.
Context `{!Fitz, !Os}.

Definition fitz_open (fs : FS) (path : str) : res (list fitz_page) :=
  do b <- read_file fs path; fitz_parse b.

(** [doc.save(path, garbage=4, deflate=True)] of the document opened from
    [name]: PyMuPDF compares the two names as they are written and raises
    when they are equal, since the save is not incremental; then MuPDF
    removes what is at the path and writes the file.  A save that breaks
    off half-way is not modelled, and neither is a path that is another
    spelling of [name]: it is another key of the map. *)
Definition fitz_save (fs : FS) (name : str) (doc : list fitz_page)
    (path : str) : res FS :=
  if bool_decide (path = name) then Raise
  else
    do b <- fitz_tobytes doc;
    if can_save fs path then Ok (<[path := File b]> fs) else Raise.

(** [for inst in search_instances: page.add_redact_annot(inst, ...)] *)
Fixpoint add_annots (page : fitz_page) (search_instances : list fitz_rect)
  : res fitz_page :=
  match search_instances with
  | [] => Ok page
  | inst :: rest =>
      do page <- add_redact_annot page inst; add_annots page rest
  end.

(** The loop over [text_list_to_redact] on one page. *)
Fixpoint redact_targets (page : fitz_page) (text_list_to_redact : list str)
    (redactions_made : nat) : res (fitz_page * nat) :=
  match text_list_to_redact with
  | [] => Ok (page, redactions_made)
  | text :: rest =>
      if negb (str_truthy text)
      then redact_targets page rest redactions_made      (* continue *)
      else
        do search_instances <- search_for page text;
        match search_instances with
        | _ :: _ =>
            let redactions_made :=
              redactions_made + length search_instances in
            do page <- add_annots page search_instances;
            redact_targets page rest redactions_made
        | [] => redact_targets page rest redactions_made
        end
  end.

(** The loop over the pages of the document. *)
Fixpoint redact_pages (doc : list fitz_page) (text_list_to_redact : list str)
    (redactions_made : nat) : res (list fitz_page * nat) :=
  match doc with
  | [] => Ok ([], redactions_made)
  | page :: doc' =>
      do r <- redact_targets page text_list_to_redact redactions_made;
      do page <- apply_redactions r.1;
      do r' <- redact_pages doc' text_list_to_redact r.2;
      Ok (page :: r'.1, r'.2)
  end.

(** The result is the file system after the call and the flag returned. *)
Definition redact_sensitive_text (fs : FS) (input_pdf_path output_pdf_path : str)
    (text_list_to_redact : list str) : res (FS * bool) :=
  if negb (path_exists fs input_pdf_path) then Ok (fs, false)
  else
    match text_list_to_redact with
    | [] =>
        try (do fs <- copyfile fs input_pdf_path output_pdf_path;
             Ok (fs, true))
        except Ok (fs, false)
    | _ :: _ =>
        try (do doc <- fitz_open fs input_pdf_path;
             let redactions_made := 0 in
             do r <- redact_pages doc text_list_to_redact redactions_made;
             let doc := r.1 in
             let redactions_made := r.2 in
             if bool_decide (0 < redactions_made)
             then
               do fs <- fitz_save fs input_pdf_path doc output_pdf_path;
               let success := true in
               Ok (fs, success)
             else
               do fs <- fitz_save fs input_pdf_path doc output_pdf_path;
               let success := true in
               Ok (fs, success))
        except Ok (fs, false)
    end.

End Redactor.

(** ** Request handler *)

(** The [error] bodies of the handler. *)
Inductive error : Type :=
| CouldNotSaveUpload
| TempFileVanished
| NoOutputGenerated
| RedactionFailed
| InternalServerError.

Inductive response : Type :=
| FileResponse (path : str) (media_type : str) (filename : str)
| ErrorBody (e : error).

Section RequestHandler.
Context `{!Pdfplumber, !Spacy, !Re.UnicodeData, !Fitz, !Os}.

(** The directory [temp] next to [main.py]. *)
Variable TEMP_DIR : str.

(** Steps 2 to 4, after the upload has been saved.  The file system is
    returned next to the outcome, since an exception of step 2b leaves
    the saved upload in place. *)
Definition process_saved_upload (fs : FS)
    (temp_input_path temp_output_path filename : str)
  : FS * res response :=
  match extract_text_from_pdf fs temp_input_path with
  | Raise => (fs, Raise)
  | Ok extracted_text =>
      if negb (truthy extracted_text)
         && negb (path_exists fs temp_input_path)
      then (fs, Ok (ErrorBody TempFileVanished))
      else
        let targets :=
          if negb (truthy extracted_text) then Ok []
          else
            do spacy_pii <- find_pii_entities extracted_text;
            let nric_pii := find_nric_matches extracted_text in
            Ok (combine_pii spacy_pii nric_pii) in
        match targets with
        | Raise => (fs, Raise)
        | Ok all_pii_to_redact =>
            match redact_sensitive_text fs temp_input_path
                    temp_output_path all_pii_to_redact with
            | Raise => (fs, Raise)
            | Ok (fs, redaction_successful) =>
                if redaction_successful
                then
                  if path_exists fs temp_output_path
                  then (fs, Ok (FileResponse temp_output_path
                                  (lit "application/pdf")
                                  (lit "redacted_" ++ filename)))
                  else (fs, Ok (ErrorBody NoOutputGenerated))
                else (fs, Ok (ErrorBody RedactionFailed))
            end
        end
  end.

(** [unique_id] is the text of the fresh UUID, [upload] the bytes of the
    uploaded file, [filename] its name. *)
Definition anonymize_pdf_endpoint (fs : FS) (unique_id filename : str)
    (upload : bytes) : FS * response :=
  let temp_input_path :=
    path_join TEMP_DIR (unique_id ++ lit "_input.pdf") in
  let temp_output_path :=
    path_join TEMP_DIR (unique_id ++ lit "_output_redacted.pdf") in
  let '(fs, outcome) :=
    match write_file fs temp_input_path upload with
    | Raise => (fs, Ok (ErrorBody CouldNotSaveUpload))
    | Ok fs =>
        process_saved_upload fs temp_input_path temp_output_path filename
    end in
  let resp :=
    match outcome with
    | Ok resp => resp
    | Raise => ErrorBody InternalServerError
    end in
  (* finally *)
  let fs :=
    if path_exists fs temp_input_path
    then match remove fs temp_input_path with Ok fs => fs | Raise => fs end
    else fs in
  (fs, resp).

End RequestHandler.

(** ** Saving the extracted text *)

(** The [utf-8] codec in strict mode, one character: one to four bytes;
    a surrogate (U+D800 to U+DFFF) cannot be encoded.  A [str] holds no
    code point above U+10FFFF. *)
Definition utf8_char (c : char) : res bytes :=
  (if c <? 128 then Ok [c]
   else if c <? 2048 then Ok [192 + c / 64; 128 + c mod 64]
   else if (55296 <=? c) && (c <=? 57343) then Raise
   else if c <? 65536
   then Ok [224 + c / 4096; 128 + (c / 64) mod 64; 128 + c mod 64]
   else Ok [240 + c / 262144; 128 + (c / 4096) mod 64;
            128 + (c / 64) mod 64; 128 + c mod 64])%N.

(** [text.encode("utf-8")] *)
Fixpoint utf8_encode (t : str) : res bytes :=
  match t with
  | [] => Ok []
  | c :: t' =>
      do b <- utf8_char c;
      do bs <- utf8_encode t';
      Ok (b ++ bs)
  end.

Section TextFile.
Context `{!Os}.

(** [open(path, "w", encoding="utf-8")] creates or empties the file;
    [f.write(text)] encodes the text and writes the bytes (a newline is
    written as it is, as on POSIX).  The handler prints and returns, so
    the function has no outcome but the file system it leaves. *)
Definition save_text_to_file (fs : FS) (text_content : str)
    (output_file_path : str) : FS :=
  match open_w fs output_file_path with
  | Raise => fs                                   (* open raised *)
  | Ok fs_opened =>
      match (do b <- utf8_encode text_content;
             write_file fs_opened output_file_path b) with
      | Raise => fs_opened                        (* write raised *)
      | Ok fs_written => fs_written
      end
  end.

End TextFile.

(** ** Script *)

Definition PDF_FILENAME : str := lit "sample.pdf".
Definition REDACTED_PDF_FILENAME : str := lit "sample_redacted.pdf".

(** The summary line the main block prints, if any. *)
Inductive summary : Type :=
| AnonymizationCompleted
| RedactionErrors
| NoPIIDetected
| ExtractionFailed.

Section Script.
Context `{!Pdfplumber, !Spacy, !Re.UnicodeData, !Fitz, !Os}.

(** [os.path.dirname(__file__)] of [process_pdf.py]. *)
Variable script_dir : str.

Definition PDF_PATH : str := path_join script_dir PDF_FILENAME.
Definition REDACTED_PDF_PATH : str :=
  path_join script_dir REDACTED_PDF_FILENAME.

(** The block under [if __name__ == "__main__"], with the model loaded.
    Nothing in it catches an exception. *)
Definition main (fs : FS) : FS * res summary :=
  match extract_text_from_pdf fs PDF_PATH with
  | Raise => (fs, Raise)
  | Ok extracted_text =>
      let all_pii_to_redact := [] in
      let all_pii_to_redact :=
        if truthy extracted_text
        then
          do spacy_pii <- find_pii_entities extracted_text;
          let nric_pii := find_nric_matches extracted_text in
          Ok (combine_pii spacy_pii nric_pii)
        else Ok all_pii_to_redact in
      match all_pii_to_redact with
      | Raise => (fs, Raise)
      | Ok ((_ :: _) as all_pii_to_redact) =>
          match redact_sensitive_text fs PDF_PATH REDACTED_PDF_PATH
                  all_pii_to_redact with
          | Raise => (fs, Raise)
          | Ok (fs, redaction_successful) =>
              if redaction_successful
              then (fs, Ok AnonymizationCompleted)
              else (fs, Ok RedactionErrors)
          end
      | Ok [] =>
          if truthy extracted_text
          then (fs, Ok NoPIIDetected)
          else (fs, Ok ExtractionFailed)
      end
  end.

End Script.

(** ** Sample libraries

    Small stand-ins for the libraries, on which the definitions above can
    be run. *)

(** The ASCII digits as the table of [\d]. *)
Definition ascii_digits : Re.UnicodeData :=
  {| Re.decimal c := (48 <=? c)%N && (c <=? 57)%N |}.

(** A pdfplumber whose every file opens as [doc]; a page is the outcome of
    its own [extract_text]. *)
Definition fixed_plumber (doc : res (list (res (option str)))) : Pdfplumber :=
  {| plumber_page := res (option str);
     pdfplumber_parse _ := doc;
     extract_text page := page |}.

(** A model that finds the entities [ents] in every text. *)
Definition fixed_spacy (ents : res (list Span)) : Spacy :=
  {| nlp _ := ents |}.

(** The offsets, counted from [i], at which [text] starts in [page]. *)
Fixpoint occurrences (text page : str) (i : nat) : list nat :=
  match page with
  | [] => []
  | _ :: page' =>
      if bool_decide (text `prefix_of` page)
      then i :: occurrences text page' (S i)
      else occurrences text page' (S i)
  end.

(** Overwrite [len] characters of [page] from offset [i] with a block. *)
Definition blacken (page : str) (i len : nat) : str :=
  take i page ++ replicate (min len (length page - i)) 9608%N ++ drop (i + len) page.

(** A PyMuPDF for one-page documents whose file is the text of the page: a
    page is its text with the rectangles marked so far, a rectangle is an
    offset and a length.  An empty file is not a document. *)
Definition toy_fitz : Fitz :=
  {| fitz_page := str * list (nat * nat);
     fitz_rect := nat * nat;
     fitz_parse b := match b with [] => Raise | _ => Ok [(b, [])] end;
     search_for page text :=
       Ok (map (λ i, (i, length text)) (occurrences text page.1 0));
     add_redact_annot page inst := Ok (page.1, page.2 ++ [inst]);
     apply_redactions page :=
       Ok (foldl (λ txt r, blacken txt r.1 r.2) page.1 page.2, []);
     fitz_tobytes doc := Ok (concat (map fst doc)) |}.

(** An operating system for paths in one writable directory, each file
    with one name: every file can be opened for writing, and MuPDF can
    save wherever there is no directory. *)
Definition toy_os : Os :=
  {| can_open_w _ _ := true;
     same_file _ _ _ := false;
     can_save fs path :=
       match fs !! path with Some Dir => false | _ => true end |}.

(** * Properties *)

(** ** Exceptions and sets *)

Lemma elem_of_list_set (l : list str) (x : str) : x ∈ list_set l ↔ x ∈ l.
Proof. unfold list_set. rewrite elem_of_elements. apply elem_of_list_to_set. Qed.

Lemma NoDup_list_set (l : list str) : NoDup (list_set l).
Proof. unfold list_set. apply NoDup_elements. Qed.

(** ** Pattern detector *)

Section PatternDetectorFacts.
Context `{!Re.UnicodeData}.

Lemma match_here_classes (p : list Re.cls) (t m : str) :
  Re.match_here p t = Some m →
  Forall2 (λ k c, Re.cls_match k c = true) p m.
Proof.
  revert t m. induction p as [|k p IH]; intros t m; simpl.
  - intros [= <-]. constructor.
  - destruct t as [|c t]; [discriminate|].
    destruct (Re.cls_match k c) eqn:Hk; [|discriminate].
    destruct (Re.match_here p t) as [m'|] eqn:Hm; [|discriminate].
    intros [= <-]. constructor; eauto.
Qed.

Lemma scan_matches (p : list Re.cls) (skip : nat) (t m : str) :
  m ∈ Re.scan p skip t → ∃ t', Re.match_here p t' = Some m.
Proof.
  revert skip. induction t as [|c t IH]; intros skip; simpl.
  - intros Hm. by apply elem_of_nil in Hm.
  - destruct skip as [|k]; [|by apply IH].
    destruct (Re.match_here p (c :: t)) as [m'|] eqn:Hm'; [|by apply IH].
    intros [->|Hm]%elem_of_cons; [by eexists|by eapply IH].
Qed.

Lemma nric_pattern_shape (m : str) :
  Forall2 (λ k c, Re.cls_match k c = true) NRIC_REGEX_PATTERN m →
  nric_shape m.
Proof.
  unfold NRIC_REGEX_PATTERN. simpl. intros HF.
  repeat match goal with
         | HF : Forall2 _ (_ :: _) _ |- _ => inversion HF; clear HF; subst
         | HF : Forall2 _ [] _ |- _ => inversion HF; clear HF; subst
         end.
  simpl in *.
  match goal with
  | |- nric_shape (?a :: ?d1 :: ?d2 :: ?d3 :: ?d4 :: ?d5 :: ?d6 :: ?d7 :: [?z]) =>
      exists a, [d1; d2; d3; d4; d5; d6; d7], z
  end.
  split; [done|]. split; [by eapply bool_decide_eq_true_1|].
  split; [done|]. split; [by repeat constructor|].
  match goal with
  | HZ : _ && _ = true |- _ => apply andb_true_iff in HZ; destruct HZ
  end.
  split; by apply N.leb_le.
Qed.

Lemma find_nric_matches_elem (text : option str) (m : str) :
  m ∈ find_nric_matches text → nric_shape m.
Proof.
  unfold find_nric_matches. destruct (negb (truthy text)).
  - intros Hm. by apply elem_of_nil in Hm.
  - rewrite elem_of_list_set. unfold Re.findall.
    intros [t' Ht']%scan_matches.
    by eapply nric_pattern_shape, match_here_classes.
Qed.

(** C2: every string the pattern detector returns has the NRIC shape (one
    of S, T, F, G, then exactly seven digits, then one letter of A..Z,
    all case-sensitive), a string that violates the shape is never
    returned, and the returned list has no duplicates. *)
Theorem find_nric_matches_shape (text : option str) :
  (∀ m, m ∈ find_nric_matches text → nric_shape m) ∧
  (∀ m, ¬ nric_shape m → m ∉ find_nric_matches text) ∧
  NoDup (find_nric_matches text).
Proof.
  split; [apply find_nric_matches_elem|]. split.
  - intros m Hno Hm. by apply Hno, (find_nric_matches_elem text).
  - unfold find_nric_matches. destruct (negb (truthy text)).
    + constructor.
    + apply NoDup_list_set.
Qed.

End PatternDetectorFacts.

Example findall_demo :
  @Re.findall ascii_digits NRIC_REGEX_PATTERN
    (lit "ID: S1234567A, s1234567a T7654321ZG0000000B S123456A") =
  [lit "S1234567A"; lit "T7654321Z"; lit "G0000000B"].
Proof. vm_compute. reflexivity. Qed.

Example find_nric_demo :
  @find_nric_matches ascii_digits (Some (lit "S1234567A S1234567A")) =
  [lit "S1234567A"].
Proof. vm_compute. reflexivity. Qed.

Example find_nric_none :
  @find_nric_matches ascii_digits None = [] ∧
  @find_nric_matches ascii_digits (Some []) = [].
Proof. split; reflexivity. Qed.

Lemma find_nric_matches_shape_witness :
  @nric_shape ascii_digits (lit "S1234567A") ∧
  lit "s1234567A" ∉ @find_nric_matches ascii_digits (Some (lit "s1234567A S1234567A")).
Proof.
  pose proof (@find_nric_matches_shape ascii_digits
                (Some (lit "s1234567A S1234567A"))) as (Hin & Hout & _).
  split.
  - apply Hin. vm_compute. left.
  - apply Hout. intros (a & ds & z & Hm & Ha & _).
    cbv in Hm. injection Hm as <- _. cbv in Ha.
    repeat (apply elem_of_cons in Ha as [Ha|Ha]; [discriminate|]).
    by apply elem_of_nil in Ha.
Defined.

(** ** Text extractor *)

Section ExtractorFacts.
Context `{!Pdfplumber}.

Lemma path_exists_true (fs : FS) (path : str) :
  path_exists fs path = true ↔ is_Some (fs !! path).
Proof. unfold path_exists. apply bool_decide_eq_true. Qed.

Lemma path_exists_false (fs : FS) (path : str) :
  path_exists fs path = false ↔ fs !! path = None.
Proof.
  unfold path_exists. rewrite bool_decide_eq_false.
  by rewrite eq_None_not_Some.
Qed.

(** When every page answers, the loop appends the pages' contributions in
    page order. *)
Lemma extract_pages_ok (pages : list plumber_page) (texts : list (option str))
    (full_text : str) :
  Forall2 (λ page text, extract_text page = Ok text) pages texts →
  extract_pages pages full_text =
  Ok (full_text ++ concat (map page_contribution texts)).
Proof.
  intros Hall. revert full_text.
  induction Hall as [|page text pages texts Hpage _ IH]; intros full_text; simpl.
  - by rewrite app_nil_r.
  - rewrite Hpage. simpl. unfold page_contribution.
    destruct (truthy text); rewrite IH; [|done].
    by rewrite <- !app_assoc.
Qed.

(** A page that raises makes the whole loop raise, whatever was gathered
    before it. *)
Lemma extract_pages_raise (pages : list plumber_page) (page : plumber_page)
    (full_text : str) :
  page ∈ pages → extract_text page = Raise →
  extract_pages pages full_text = Raise.
Proof.
  intros Hin Hraise. revert full_text.
  induction pages as [|page' pages IH]; intros full_text.
  - by apply elem_of_nil in Hin.
  - simpl. apply elem_of_cons in Hin as [<-|Hin].
    + by rewrite Hraise.
    + destruct (extract_text page') as [text|]; [simpl|done].
      destruct (truthy text); by apply IH.
Qed.

Lemma extract_text_from_pdf_total (fs : FS) (path : str) :
  ∃ v, extract_text_from_pdf fs path = Ok v.
Proof.
  unfold extract_text_from_pdf.
  destruct (negb (path_exists fs path)); [by eexists|].
  destruct (pdfplumber_open fs path) as [pages|]; simpl; [|by eexists].
  destruct (extract_pages pages []); simpl; by eexists.
Qed.

(** C3, amended: the extractor never raises; it returns the absent value
    when the path does not exist, when opening the document raises and
    when a page raises (so never a part of the text); for a document that
    opens with no pages it returns the empty string, not the absent
    value. *)
Theorem extract_text_from_pdf_failure (fs : FS) (path : str) :
  (∃ v, extract_text_from_pdf fs path = Ok v) ∧
  (path_exists fs path = false → extract_text_from_pdf fs path = Ok None) ∧
  (pdfplumber_open fs path = Raise →
   extract_text_from_pdf fs path = Ok None) ∧
  (∀ pages page,
     pdfplumber_open fs path = Ok pages →
     page ∈ pages → extract_text page = Raise →
     extract_text_from_pdf fs path = Ok None) ∧
  (path_exists fs path = true → pdfplumber_open fs path = Ok [] →
   extract_text_from_pdf fs path = Ok (Some [])).
Proof.
  split; [apply extract_text_from_pdf_total|].
  unfold extract_text_from_pdf. repeat split.
  - by intros ->.
  - intros ->. by destruct (negb (path_exists fs path)).
  - intros pages page -> Hin Hraise.
    destruct (negb (path_exists fs path)); [done|]. simpl.
    by rewrite (extract_pages_raise pages page).
  - by intros -> ->.
Qed.

(** C6: for a document that opens and whose pages all answer, the
    extracted text is the concatenation, in page order, of each page's
    text followed by a newline; a page with no text adds nothing and the
    pages after it are still read. *)
Theorem extract_text_from_pdf_concat (fs : FS) (path : str) (b : bytes)
    (pages : list plumber_page) (texts : list (option str)) :
  fs !! path = Some (File b) →
  pdfplumber_parse b = Ok pages →
  Forall2 (λ page text, extract_text page = Ok text) pages texts →
  extract_text_from_pdf fs path =
  Ok (Some (concat (map page_contribution texts))).
Proof.
  intros Hfile Hopen Hpages. unfold extract_text_from_pdf.
  assert (path_exists fs path = true) as ->
      by (apply path_exists_true; by rewrite Hfile).
  unfold pdfplumber_open, read_file. rewrite Hfile. simpl.
  rewrite Hopen. simpl. by rewrite (extract_pages_ok pages texts).
Qed.

End ExtractorFacts.

Lemma extract_text_from_pdf_failure_witness :
  @extract_text_from_pdf (fixed_plumber Raise) ∅ (lit "gone.pdf") = Ok None ∧
  @extract_text_from_pdf (fixed_plumber Raise)
    {[ lit "bad.pdf" := File (lit "junk") ]} (lit "bad.pdf") = Ok None ∧
  @extract_text_from_pdf
    (fixed_plumber (Ok [Ok (Some (lit "page one")); Raise]))
    {[ lit "torn.pdf" := File (lit "%PDF") ]} (lit "torn.pdf") = Ok None.
Proof.
  split; [|split].
  - apply (@extract_text_from_pdf_failure (fixed_plumber Raise)).
    reflexivity.
  - apply (@extract_text_from_pdf_failure (fixed_plumber Raise)).
    reflexivity.
  - apply (@extract_text_from_pdf_failure
             (fixed_plumber (Ok [Ok (Some (lit "page one")); Raise])))
      with (pages := [Ok (Some (lit "page one")); Raise]) (page := Raise).
    + reflexivity.
    + right. left.
    + reflexivity.
Defined.

(** A document that opens with no pages: the extractor answers the empty
    string, which is not the absent value. *)
Lemma extract_no_pages_counterexample :
  let fs : FS := {[ lit "empty.pdf" := File (lit "%PDF") ]} in
  path_exists fs (lit "empty.pdf") = true ∧
  @pdfplumber_open (fixed_plumber (Ok [])) fs (lit "empty.pdf") = Ok [] ∧
  @extract_text_from_pdf (fixed_plumber (Ok [])) fs (lit "empty.pdf")
    = Ok (Some []) ∧
  @extract_text_from_pdf (fixed_plumber (Ok [])) fs (lit "empty.pdf")
    ≠ Ok None.
Proof. repeat split; try reflexivity. vm_compute. discriminate. Qed.

Lemma extract_text_from_pdf_concat_witness :
  @extract_text_from_pdf
    (fixed_plumber (Ok [Ok (Some (lit "one")); Ok None; Ok (Some []);
                        Ok (Some (lit "four"))]))
    {[ lit "doc.pdf" := File (lit "%PDF") ]} (lit "doc.pdf") =
  Ok (Some (lit "one" ++ newline ++ lit "four" ++ newline)).
Proof.
  apply (@extract_text_from_pdf_concat
           (fixed_plumber (Ok [Ok (Some (lit "one")); Ok None; Ok (Some []);
                               Ok (Some (lit "four"))]))
           _ _ (lit "%PDF")
           [Ok (Some (lit "one")); Ok None; Ok (Some []);
            Ok (Some (lit "four"))]
           [Some (lit "one"); None; Some []; Some (lit "four")]).
  - reflexivity.
  - reflexivity.
  - repeat constructor.
Defined.

(** ** Entity detector *)

Section EntityDetectorFacts.
Context `{!Spacy}.

Lemma collect_pii_elem (ents : list Span) (pii_list : list str) (x : str) :
  x ∈ collect_pii ents pii_list ↔
  x ∈ pii_list ∨
  ∃ e, e ∈ ents ∧ span_text e = x ∧ span_label_ e ∈ PII_ENTITY_TYPES.
Proof.
  revert pii_list. induction ents as [|entity ents IH]; intros pii_list; simpl.
  - split; [by left|]. intros [?|(e & He & _)]; [done|].
    by apply elem_of_nil in He.
  - case_bool_decide as Hlabel; rewrite IH.
    + rewrite elem_of_app, list_elem_of_singleton. split.
      * intros [[?| ->]|(e & He & ?)]; [by left| |].
        -- right. exists entity. split; [left|done].
        -- right. exists e. split; [by right|done].
      * intros [?|(e & [->|He]%elem_of_cons & Hx & ?)].
        -- by left; left.
        -- by left; right.
        -- right. by exists e.
    + split.
      * intros [?|(e & He & ?)]; [by left|].
        right. exists e. split; [by right|done].
      * intros [?|(e & [->|He]%elem_of_cons & Hx & ?)]; [by left|done|].
        right. by exists e.
Qed.

(** C7: on absent or empty text the entity detector returns the empty
    list; on other text, when the model answers, it returns without
    duplicates exactly the texts of the entities whose label is in the
    fixed list PERSON, GPE, LOC, ORG, DATE, so never a text all of whose
    detections carry a label outside that list. *)
Theorem find_pii_entities_spec (text : str) (ents : list Span) :
  PII_ENTITY_TYPES =
    [lit "PERSON"; lit "GPE"; lit "LOC"; lit "ORG"; lit "DATE"] ∧
  find_pii_entities None = Ok [] ∧
  find_pii_entities (Some []) = Ok [] ∧
  (text ≠ [] → nlp text = Ok ents →
   ∃ found,
     find_pii_entities (Some text) = Ok found ∧
     NoDup found ∧
     (∀ x, x ∈ found ↔
           ∃ e, e ∈ ents ∧ span_text e = x ∧
                span_label_ e ∈ PII_ENTITY_TYPES) ∧
     (∀ x, (∀ e, e ∈ ents → span_text e = x →
                 span_label_ e ∉ PII_ENTITY_TYPES) →
           x ∉ found)).
Proof.
  split; [done|]. split; [done|]. split; [done|].
  intros Htext Hnlp. unfold find_pii_entities.
  destruct text as [|c text]; [done|]. simpl. rewrite Hnlp. simpl.
  eexists. split; [done|]. split; [apply NoDup_list_set|].
  assert (∀ x, x ∈ list_set (collect_pii ents []) ↔
               ∃ e, e ∈ ents ∧ span_text e = x ∧
                    span_label_ e ∈ PII_ENTITY_TYPES) as Hiff.
  { intros x. rewrite elem_of_list_set, collect_pii_elem. split.
    - intros [Hx|?]; [by apply elem_of_nil in Hx|done].
    - by right. }
  split; [done|].
  intros x Hout (e & He & Hx & Hlabel)%Hiff. by eapply Hout.
Qed.

End EntityDetectorFacts.

Lemma find_pii_entities_spec_witness :
  ∃ found,
    @find_pii_entities
      (fixed_spacy (Ok [ {| span_text := lit "John Smith"; span_label_ := lit "PERSON" |};
                         {| span_text := lit "three"; span_label_ := lit "CARDINAL" |};
                         {| span_text := lit "Singapore"; span_label_ := lit "GPE" |};
                         {| span_text := lit "John Smith"; span_label_ := lit "PERSON" |} ]))
      (Some (lit "John Smith has three houses in Singapore. John Smith")) = Ok found ∧
    NoDup found ∧
    lit "Singapore" ∈ found ∧ lit "three" ∉ found.
Proof.
  set (ents := [ {| span_text := lit "John Smith"; span_label_ := lit "PERSON" |};
                 {| span_text := lit "three"; span_label_ := lit "CARDINAL" |};
                 {| span_text := lit "Singapore"; span_label_ := lit "GPE" |};
                 {| span_text := lit "John Smith"; span_label_ := lit "PERSON" |} ]).
  destruct (@find_pii_entities_spec (fixed_spacy (Ok ents))
              (lit "John Smith has three houses in Singapore. John Smith")
              ents) as (_ & _ & _ & Hspec).
  destruct Hspec as (found & Hfound & Hnodup & Hin & Hout);
    [discriminate|reflexivity|].
  exists found. split; [exact Hfound|]. split; [exact Hnodup|]. split.
  - apply Hin. eexists. split; [right; right; left|].
    split; [reflexivity|]. right. left.
  - apply Hout. clear. intros e He Hx. subst ents.
    repeat (apply elem_of_cons in He as [->|He]; [try discriminate Hx|]).
    + clear. vm_compute. intros Hl.
      repeat (apply elem_of_cons in Hl as [Hl|Hl]; [discriminate Hl|]).
      by apply elem_of_nil in Hl.
    + by apply elem_of_nil in He.
Defined.

Example find_pii_entities_demo :
  @find_pii_entities
    (fixed_spacy (Ok [ {| span_text := lit "John Smith"; span_label_ := lit "PERSON" |};
                       {| span_text := lit "three"; span_label_ := lit "CARDINAL" |};
                       {| span_text := lit "John Smith"; span_label_ := lit "PERSON" |} ]))
    (Some (lit "John Smith, three, John Smith")) = Ok [lit "John Smith"].
Proof. vm_compute. reflexivity. Qed.

(** ** Aggregator *)

Lemma filter_eq_not_elem_of (l : list str) (x : str) :
  x ∉ l → filter (λ y, y = x) l = [].
Proof.
  induction l as [|y l IH]; [done|]. intros Hx.
  apply not_elem_of_cons in Hx as [Hne Hx].
  rewrite filter_cons, decide_False by done. by apply IH.
Qed.

Lemma NoDup_filter_eq_length (l : list str) (x : str) :
  NoDup l → x ∈ l → length (filter (λ y, y = x) l) = 1.
Proof.
  induction 1 as [|y l Hy Hnodup IH]; intros Hx.
  - by apply elem_of_nil in Hx.
  - rewrite filter_cons. apply elem_of_cons in Hx as [->|Hx].
    + rewrite decide_True by done. by rewrite filter_eq_not_elem_of.
    + rewrite decide_False; [by apply IH|]. by intros ->.
Qed.

(** C4: the aggregator is set union: a string is in the combined list
    exactly when it is in one of the two results, the combined list has no
    duplicates, and a string found by both detectors is in it exactly
    once. *)
Theorem combine_pii_union (spacy_pii nric_pii : list str) (x : str) :
  (x ∈ combine_pii spacy_pii nric_pii ↔ x ∈ spacy_pii ∨ x ∈ nric_pii) ∧
  NoDup (combine_pii spacy_pii nric_pii) ∧
  (x ∈ spacy_pii → x ∈ nric_pii →
   length (filter (λ y, y = x) (combine_pii spacy_pii nric_pii)) = 1).
Proof.
  assert (x ∈ combine_pii spacy_pii nric_pii ↔ x ∈ spacy_pii ∨ x ∈ nric_pii)
    as Hiff.
  { unfold combine_pii.
    by rewrite elem_of_elements, elem_of_union, !elem_of_list_to_set. }
  assert (NoDup (combine_pii spacy_pii nric_pii)) as Hnodup
      by (unfold combine_pii; apply NoDup_elements).
  split; [done|]. split; [done|].
  intros Ha _. apply NoDup_filter_eq_length; [done|]. apply Hiff. by left.
Qed.

Lemma combine_pii_union_witness :
  length (filter (λ y, y = lit "S1234567A")
            (combine_pii [lit "John Smith"; lit "S1234567A"]
                         [lit "S1234567A"; lit "T7654321Z"])) = 1.
Proof.
  apply (combine_pii_union [lit "John Smith"; lit "S1234567A"]
                           [lit "S1234567A"; lit "T7654321Z"]
                           (lit "S1234567A")).
  - right. left.
  - left.
Defined.

Example combine_pii_demo :
  length (combine_pii [lit "John Smith"; lit "S1234567A"]
                      [lit "S1234567A"; lit "T7654321Z"]) = 3.
Proof. vm_compute. reflexivity. Qed.

(** ** File system *)

Lemma write_file_ok (fs : FS) (path : str) (b : bytes) :
  fs !! path ≠ Some Dir → write_file fs path b = Ok (<[path := File b]> fs).
Proof. unfold write_file. by destruct (fs !! path) as [[]|]. Qed.

Lemma write_file_inv (fs fs' : FS) (path : str) (b : bytes) :
  write_file fs path b = Ok fs' → fs' = <[path := File b]> fs.
Proof. unfold write_file. destruct (fs !! path) as [[]|]; congruence. Qed.

Lemma read_file_inv (fs : FS) (path : str) (b : bytes) :
  read_file fs path = Ok b ↔ fs !! path = Some (File b).
Proof.
  unfold read_file. destruct (fs !! path) as [[]|]; split; congruence.
Qed.

Lemma copyfile_inv `{!Os} (fs fs' : FS) (src dst : str) :
  copyfile fs src dst = Ok fs' →
  ∃ b, fs !! src = Some (File b) ∧ fs' = <[dst := File b]> fs.
Proof.
  unfold copyfile, open_w.
  destruct (bool_decide (src = dst) || same_file fs src dst); [done|].
  destruct (read_file fs src) as [b|] eqn:Hread; [simpl|done].
  destruct (can_open_w fs dst); [|done].
  destruct (write_file fs dst []) as [fs1|] eqn:Hopen; [simpl|done].
  apply write_file_inv in Hopen as ->.
  intros ->%write_file_inv. exists b. rewrite insert_insert_eq.
  by apply read_file_inv in Hread.
Qed.

(** ** Redactor *)

Section RedactorFacts.
Context `{!Fitz, !Os}.

Lemma fitz_save_inv (fs fs' : FS) (name path : str) (doc : list fitz_page) :
  fitz_save fs name doc path = Ok fs' →
  ∃ b, fitz_tobytes doc = Ok b ∧ fs' = <[path := File b]> fs.
Proof.
  unfold fitz_save. case_bool_decide; [done|].
  destruct (fitz_tobytes doc) as [b|]; [simpl|done].
  destruct (can_save fs path); [|done].
  intros [= <-]. by exists b.
Qed.

(** Empty strings in the list are stepped over: the loops do the same on
    the list without them. *)
Lemma redact_targets_skip_empty (page : fitz_page) (targets : list str)
    (redactions_made : nat) :
  redact_targets page targets redactions_made =
  redact_targets page (filter (λ text, str_truthy text) targets)
    redactions_made.
Proof.
  revert page redactions_made.
  induction targets as [|text targets IH]; intros page n; [done|].
  rewrite filter_cons. simpl. destruct (str_truthy text) eqn:Htext; simpl.
  - rewrite Htext. simpl.
    destruct (search_for page text) as [[|inst insts]|]; simpl; [done| |done].
    destruct (add_redact_annot page inst) as [page'|]; simpl; [|done].
    destruct (add_annots page' insts) as [page''|]; simpl; [|done].
    apply IH.
  - apply IH.
Qed.

Lemma redact_pages_skip_empty (doc : list fitz_page) (targets : list str)
    (redactions_made : nat) :
  redact_pages doc targets redactions_made =
  redact_pages doc (filter (λ text, str_truthy text) targets)
    redactions_made.
Proof.
  revert redactions_made. induction doc as [|page doc IH]; intros n; [done|].
  simpl. rewrite <- redact_targets_skip_empty.
  destruct (redact_targets page targets n) as [[page' n']|]; simpl; [|done].
  destruct (apply_redactions page') as [page''|]; simpl; [|done].
  by rewrite IH.
Qed.

(** The redactor returns a flag on every input. *)
Lemma redact_sensitive_text_total (fs : FS) (input output : str)
    (targets : list str) :
  ∃ fs' flag, redact_sensitive_text fs input output targets = Ok (fs', flag).
Proof.
  unfold redact_sensitive_text.
  destruct (negb (path_exists fs input)); [by eauto|].
  destruct targets as [|text targets].
  - destruct (copyfile fs input output); simpl; eauto.
  - destruct (fitz_open fs input) as [doc|]; simpl; [|by eauto].
    destruct (redact_pages doc (text :: targets) 0) as [[doc' n]|];
      simpl; [|by eauto].
    case_bool_decide;
      destruct (fitz_save fs input doc' output); simpl; eauto.
Qed.

(** C8: when the input path does not exist the redactor returns failure
    at once, for every output path and every target list, and the file
    system is left as it was: no file is written. *)
Theorem redact_missing_input (fs : FS) (input output : str)
    (targets : list str) :
  path_exists fs input = false →
  redact_sensitive_text fs input output targets = Ok (fs, false).
Proof. intros Hmissing. unfold redact_sensitive_text. by rewrite Hmissing. Qed.

(** C10: the existence check comes before the empty-target branch: with a
    missing input and an empty target list the redactor returns failure
    and copies nothing, and whenever the copy-through succeeds the input
    exists (as a regular file, whose bytes the output then holds). *)
Theorem redact_existence_check_first (fs : FS) (input output : str) :
  (path_exists fs input = false →
   redact_sensitive_text fs input output [] = Ok (fs, false)) ∧
  (∀ fs', redact_sensitive_text fs input output [] = Ok (fs', true) →
          path_exists fs input = true ∧
          ∃ b, fs !! input = Some (File b) ∧
               fs' = <[output := File b]> fs).
Proof.
  unfold redact_sensitive_text. split; [by intros ->|]. intros fs'.
  destruct (path_exists fs input); simpl; [|done].
  destruct (copyfile fs input output) as [fs''|] eqn:Hcopy; simpl; [|done].
  intros [= <-]. split; [done|]. by apply copyfile_inv.
Qed.

(** C9: whenever the redactor returns the success flag, the output path
    holds a file afterwards: the copy of the input in the empty-target
    branch, the saved document otherwise. *)
Theorem redact_success_output_exists (fs fs' : FS) (input output : str)
    (targets : list str) :
  redact_sensitive_text fs input output targets = Ok (fs', true) →
  path_exists fs' output = true ∧
  ((targets = [] ∧ ∃ b, fs !! input = Some (File b) ∧
                        fs' !! output = Some (File b)) ∨
   (targets ≠ [] ∧ ∃ doc b, fitz_tobytes doc = Ok b ∧
                            fs' !! output = Some (File b))).
Proof.
  unfold redact_sensitive_text.
  destruct (negb (path_exists fs input)); [done|].
  destruct targets as [|text targets].
  - destruct (copyfile fs input output) as [fs''|] eqn:Hcopy; simpl; [|done].
    intros [= <-]. apply copyfile_inv in Hcopy as (b & Hin & ->).
    split; [apply path_exists_true; by rewrite lookup_insert_eq|].
    left. split; [done|]. exists b. by rewrite lookup_insert_eq.
  - destruct (fitz_open fs input) as [doc|]; simpl; [|done].
    destruct (redact_pages doc (text :: targets) 0) as [[doc' n]|];
      simpl; [|done].
    assert (fitz_save fs input doc' output = Ok fs' →
            path_exists fs' output = true ∧
            ∃ doc b, fitz_tobytes doc = Ok b ∧
                     fs' !! output = Some (File b)) as Hsave.
    { intros (b & Hb & ->)%fitz_save_inv.
      split; [apply path_exists_true; by rewrite lookup_insert_eq|].
      exists doc', b. by rewrite lookup_insert_eq. }
    case_bool_decide;
      destruct (fitz_save fs input doc' output) as [fs''|]; simpl;
      try done; intros [= <-]; destruct Hsave as [? ?]; auto.
Qed.

(** C5, amended: for an existing input and a non-empty target list,
    whenever no call of PyMuPDF raises (the open, the loop over pages and
    targets, the save to the output path) the redactor has saved the
    document to the output path and returns success, whatever the number
    of occurrences found, zero included: the two branches of
    [if redactions_made > 0] save alike.  Empty strings in the list are
    stepped over, so they add no redaction and cannot raise. *)
Theorem redact_saves_without_matches (fs fs' : FS) (input output : str)
    (targets : list str) (doc doc' : list fitz_page)
    (redactions_made : nat) :
  targets ≠ [] →
  fitz_open fs input = Ok doc →
  redact_pages doc (filter (λ text, str_truthy text) targets) 0
    = Ok (doc', redactions_made) →
  fitz_save fs input doc' output = Ok fs' →
  redact_sensitive_text fs input output targets = Ok (fs', true) ∧
  ∃ saved, fitz_tobytes doc' = Ok saved ∧
           fs' !! output = Some (File saved).
Proof.
  intros Htargets Hopen Hpages Hsave. split.
  - unfold redact_sensitive_text.
    assert (path_exists fs input = true) as ->.
    { unfold fitz_open in Hopen.
      destruct (read_file fs input) as [b|] eqn:Hread; [|done].
      apply read_file_inv in Hread. apply path_exists_true.
      by rewrite Hread. }
    destruct targets as [|text targets]; [done|]. simpl negb. cbv iota.
    rewrite Hopen. simpl bind.
    rewrite redact_pages_skip_empty, Hpages. simpl.
    rewrite Hsave. by case_bool_decide.
  - apply fitz_save_inv in Hsave as (saved & Hsaved & ->).
    exists saved. by rewrite lookup_insert_eq.
Qed.

End RedactorFacts.

Lemma redact_missing_input_witness :
  @redact_sensitive_text toy_fitz toy_os
    {[ lit "other.pdf" := File (lit "Bob") ]}
    (lit "gone.pdf") (lit "out.pdf") [lit "Bob"]
  = Ok ({[ lit "other.pdf" := File (lit "Bob") ]}, false).
Proof. apply (@redact_missing_input toy_fitz toy_os). vm_compute. reflexivity. Defined.

Lemma redact_existence_check_first_witness :
  @redact_sensitive_text toy_fitz toy_os ∅ (lit "gone.pdf") (lit "out.pdf") []
  = Ok (∅, false).
Proof.
  apply (@redact_existence_check_first toy_fitz toy_os). vm_compute. reflexivity.
Defined.

Lemma redact_success_output_exists_witness :
  path_exists
    ({[ lit "in.pdf" := File (lit "Bob met Bob");
        lit "out.pdf" := File (lit "Bob met Bob") ]} : FS)
    (lit "out.pdf") = true.
Proof.
  apply (@redact_success_output_exists toy_fitz toy_os
           {[ lit "in.pdf" := File (lit "Bob met Bob") ]} _
           (lit "in.pdf") (lit "out.pdf") []).
  vm_compute. reflexivity.
Defined.

(** No target occurs in the document and one target is the empty string:
    the document is saved all the same. *)
Lemma redact_saves_without_matches_witness :
  @redact_sensitive_text toy_fitz toy_os
    {[ lit "in.pdf" := File (lit "nothing to hide") ]}
    (lit "in.pdf") (lit "out.pdf") [[]; lit "Bob"]
  = Ok (<[ lit "out.pdf" := File (lit "nothing to hide") ]>
          {[ lit "in.pdf" := File (lit "nothing to hide") ]}, true).
Proof.
  eapply proj1.
  apply (@redact_saves_without_matches toy_fitz toy_os _ _ _ _ _
           [(lit "nothing to hide", [])] [(lit "nothing to hide", [])] 0).
  - discriminate.
  - vm_compute. reflexivity.
  - vm_compute. reflexivity.
  - vm_compute. reflexivity.
Defined.

(** An existing document, a target that occurs nowhere, and the output
    path equal to the input path: the save raises, the redactor reports
    failure and no file is saved. *)
Lemma redact_saves_without_matches_counterexample :
  @redact_sensitive_text toy_fitz toy_os
    {[ lit "in.pdf" := File (lit "nothing to hide") ]}
    (lit "in.pdf") (lit "in.pdf") [lit "Bob"]
  = Ok ({[ lit "in.pdf" := File (lit "nothing to hide") ]}, false).
Proof. vm_compute. reflexivity. Qed.

Example toy_fitz_demo :
  @redact_sensitive_text toy_fitz toy_os
    {[ lit "in.pdf" := File (lit "Bob met Bob") ]}
    (lit "in.pdf") (lit "out.pdf") [lit "Bob"; []] =
  Ok ({[ lit "in.pdf" := File (lit "Bob met Bob");
         lit "out.pdf" := File ([9608; 9608; 9608]%N ++ lit " met "
                                 ++ [9608; 9608; 9608]%N) ]}, true).
Proof. vm_compute. reflexivity. Qed.

(** ** Request handler *)

Lemma head_temp_suffix (unique_id : str) :
  head (unique_id ++ lit "_input.pdf") =
  head (unique_id ++ lit "_output_redacted.pdf").
Proof. by destruct unique_id. Qed.

(** The two temporary paths of a request are different paths. *)
Lemma temp_paths_distinct (TEMP_DIR unique_id : str) :
  path_join TEMP_DIR (unique_id ++ lit "_input.pdf") ≠
  path_join TEMP_DIR (unique_id ++ lit "_output_redacted.pdf").
Proof.
  unfold path_join. rewrite <- head_temp_suffix.
  assert (lit "_input.pdf" ≠ lit "_output_redacted.pdf") as Hsuffix
      by (vm_compute; discriminate).
  repeat case_bool_decide; intros Heq; apply Hsuffix.
  - by apply app_inv_head in Heq.
  - by apply app_inv_head, app_inv_head in Heq.
  - apply app_inv_head in Heq. injection Heq as Heq.
    by apply app_inv_head in Heq.
Qed.

Section RequestHandlerFacts.
Context `{!Pdfplumber, !Spacy, !Re.UnicodeData, !Fitz, !Os}.
Variable TEMP_DIR : str.

(** With an existing input the empty-target branch is the copy. *)
Lemma redact_empty_targets_copy (fs fs' : FS) (input output : str) :
  path_exists fs input = true →
  copyfile fs input output = Ok fs' →
  redact_sensitive_text fs input output [] = Ok (fs', true).
Proof.
  intros Hex Hcopy. unfold redact_sensitive_text. rewrite Hex. simpl.
  by rewrite Hcopy.
Qed.

(** C1, amended: for an input path that exists, whenever
    [shutil.copyfile] from the input to the output path returns without
    raising, the redactor with an empty target list has copied the bytes
    of the input to the output path and returns success; when the input
    does not exist or the copy raises it returns failure.  In particular,
    for a saved upload with no extractable text the handler calls the
    redactor with the empty target list and, when the copy returns, the
    output file holds the bytes of the upload and the handler answers
    with that file. *)
Theorem redact_empty_targets_copy_through :
  (∀ (fs fs' : FS) (input output : str),
     path_exists fs input = true →
     copyfile fs input output = Ok fs' →
     redact_sensitive_text fs input output [] = Ok (fs', true) ∧
     ∃ b, fs !! input = Some (File b) ∧ fs' !! output = Some (File b)) ∧
  (∀ (fs : FS) (input output : str),
     path_exists fs input = false ∨ copyfile fs input output = Raise →
     ∃ fs', redact_sensitive_text fs input output [] = Ok (fs', false)) ∧
  (∀ (fs fs2 : FS) (unique_id filename : str) (upload : bytes),
     let temp_input_path :=
       path_join TEMP_DIR (unique_id ++ lit "_input.pdf") in
     let temp_output_path :=
       path_join TEMP_DIR (unique_id ++ lit "_output_redacted.pdf") in
     let fs1 : FS := <[temp_input_path := File upload]> fs in
     fs !! temp_input_path ≠ Some Dir →
     (∀ text, extract_text_from_pdf fs1 temp_input_path = Ok text →
              truthy text = false) →
     copyfile fs1 temp_input_path temp_output_path = Ok fs2 →
     process_saved_upload fs1 temp_input_path temp_output_path filename
       = (fs2, Ok (FileResponse temp_output_path (lit "application/pdf")
                     (lit "redacted_" ++ filename))) ∧
     redact_sensitive_text fs1 temp_input_path temp_output_path []
       = Ok (fs2, true) ∧
     anonymize_pdf_endpoint TEMP_DIR fs unique_id filename upload
       = (delete temp_input_path fs2,
          FileResponse temp_output_path (lit "application/pdf")
            (lit "redacted_" ++ filename)) ∧
     delete temp_input_path fs2 !! temp_output_path = Some (File upload)).
Proof.
  split; [|split].
  - intros fs fs' input output Hex Hcopy.
    split; [by apply redact_empty_targets_copy|].
    apply copyfile_inv in Hcopy as (b & Hb & ->).
    exists b. by rewrite lookup_insert_eq.
  - intros fs input output Hfail. unfold redact_sensitive_text.
    destruct Hfail as [-> | Hraise]; [by eexists|].
    destruct (negb (path_exists fs input)); [by eexists|].
    rewrite Hraise. by eexists.
  - intros fs fs2 unique_id filename upload tin tout fs1 Hin Hnotext Hcopy.
    pose proof (temp_paths_distinct TEMP_DIR unique_id) as Hne.
    fold tin tout in Hne.
    assert (fs1 !! tin = Some (File upload)) as Hfs1
        by (unfold fs1; by rewrite lookup_insert_eq).
    assert (path_exists fs1 tin = true) as Hex
        by (apply path_exists_true; by rewrite Hfs1).
    pose proof (redact_empty_targets_copy _ _ _ _ Hex Hcopy) as Hredact.
    apply copyfile_inv in Hcopy as (b & Hb & ->).
    rewrite Hfs1 in Hb. injection Hb as <-.
    assert (process_saved_upload fs1 tin tout filename
            = (<[tout := File upload]> fs1,
               Ok (FileResponse tout (lit "application/pdf")
                     (lit "redacted_" ++ filename)))) as Hprocess.
    { unfold process_saved_upload.
      destruct (extract_text_from_pdf_total fs1 tin) as [text Htext].
      rewrite Htext, (Hnotext text Htext). simpl.
      rewrite Hex. simpl. rewrite Hredact.
      assert (path_exists (<[tout := File upload]> fs1) tout = true) as ->
          by (apply path_exists_true; by rewrite lookup_insert_eq).
      done. }
    split; [done|]. split; [done|]. split.
    + unfold anonymize_pdf_endpoint. fold tin tout.
      rewrite (write_file_ok fs tin upload) by done. fold fs1.
      rewrite Hprocess.
      assert (<[tout := File upload]> fs1 !! tin = Some (File upload))
        as Hfs2 by (by rewrite lookup_insert_ne).
      assert (path_exists (<[tout := File upload]> fs1) tin = true) as ->
          by (apply path_exists_true; by rewrite Hfs2).
      unfold remove. by rewrite Hfs2.
    + rewrite lookup_delete_ne by done. by rewrite lookup_insert_eq.
Qed.

End RequestHandlerFacts.

(** With no input file nothing is copied, and an existing file is not
    copied onto itself: in both cases the redactor reports failure with an
    empty target list. *)
Lemma redact_empty_targets_counterexample :
  (@redact_sensitive_text toy_fitz toy_os ∅ (lit "gone.pdf") (lit "out.pdf") []
     = Ok (∅, false) ∧
   (∅ : FS) !! lit "out.pdf" = None) ∧
  @redact_sensitive_text toy_fitz toy_os
    {[ lit "in.pdf" := File (lit "scan") ]} (lit "in.pdf") (lit "in.pdf") []
  = Ok ({[ lit "in.pdf" := File (lit "scan") ]}, false).
Proof. split; [split; reflexivity|]. vm_compute. reflexivity. Qed.

Lemma redact_empty_targets_copy_through_witness :
  @redact_sensitive_text toy_fitz toy_os
    {[ lit "in.pdf" := File (lit "scan") ]} (lit "in.pdf") (lit "out.pdf") []
  = Ok (<[ lit "out.pdf" := File (lit "scan") ]>
          {[ lit "in.pdf" := File (lit "scan") ]}, true) ∧
  @anonymize_pdf_endpoint (fixed_plumber (Ok [Ok None; Ok (Some [])]))
    (fixed_spacy Raise) ascii_digits toy_fitz toy_os
    (lit "/srv/temp") ∅ (lit "1f0e") (lit "scan.pdf") (lit "image only")
  = ({[ lit "/srv/temp/1f0e_output_redacted.pdf" := File (lit "image only") ]},
     FileResponse (lit "/srv/temp/1f0e_output_redacted.pdf")
       (lit "application/pdf") (lit "redacted_scan.pdf")).
Proof.
  pose proof (@redact_empty_targets_copy_through
                (fixed_plumber (Ok [Ok None; Ok (Some [])]))
                (fixed_spacy Raise) ascii_digits toy_fitz toy_os
                (lit "/srv/temp")) as (Hredact & _ & Hhandler).
  split.
  - eapply proj1. apply Hredact.
    + vm_compute. reflexivity.
    + vm_compute. reflexivity.
  - destruct (Hhandler ∅
                (<[ lit "/srv/temp/1f0e_output_redacted.pdf"
                      := File (lit "image only") ]>
                   {[ lit "/srv/temp/1f0e_input.pdf"
                        := File (lit "image only") ]})
                (lit "1f0e") (lit "scan.pdf") (lit "image only"))
      as (_ & _ & Hanswer & _).
    + vm_compute. discriminate.
    + intros text. vm_compute. intros [= <-]. reflexivity.
    + vm_compute. reflexivity.
    + rewrite Hanswer. vm_compute. reflexivity.
Defined.

Example endpoint_redacts_demo :
  @anonymize_pdf_endpoint
    (fixed_plumber (Ok [Ok (Some (lit "John Smith, ID S1234567A"))]))
    (fixed_spacy (Ok [ {| span_text := lit "John Smith";
                         span_label_ := lit "PERSON" |} ]))
    ascii_digits toy_fitz toy_os
    (lit "/srv/temp") ∅ (lit "1f0e") (lit "id.pdf")
    (lit "John Smith, ID S1234567A")
  = ({[ lit "/srv/temp/1f0e_output_redacted.pdf"
          := File (replicate 10 9608%N ++ lit ", ID "
                     ++ replicate 9 9608%N) ]},
     FileResponse (lit "/srv/temp/1f0e_output_redacted.pdf")
       (lit "application/pdf") (lit "redacted_id.pdf")).
Proof. vm_compute. reflexivity. Qed.

(** * Further properties *)

(** ** Pattern detector: where the matches lie and how many there are *)

Lemma list_set_length (l : list str) : length (list_set l) ≤ length l.
Proof.
  apply submseteq_length, NoDup_submseteq; [apply NoDup_list_set|].
  intros x. apply elem_of_list_set.
Qed.

Section PatternDetectorScan.
Context `{!Re.UnicodeData}.

Lemma match_here_prefix (p : list Re.cls) (t m : str) :
  Re.match_here p t = Some m → m `prefix_of` t.
Proof.
  revert t m. induction p as [|k p IH]; intros t m; simpl.
  - intros [= <-]. apply prefix_nil.
  - destruct t as [|c t]; [discriminate|].
    destruct (Re.cls_match k c); [|discriminate].
    destruct (Re.match_here p t) as [m'|] eqn:Hm; [|discriminate].
    intros [= <-]. apply prefix_cons. eauto.
Qed.

Lemma match_here_length (p : list Re.cls) (t m : str) :
  Re.match_here p t = Some m → length m = length p.
Proof.
  intros HF%match_here_classes. symmetry. by eapply Forall2_length.
Qed.

Lemma scan_substring (p : list Re.cls) (skip : nat) (t m : str) :
  m ∈ Re.scan p skip t → ∃ pre post, t = pre ++ m ++ post.
Proof.
  revert skip. induction t as [|c t IH]; intros skip; simpl.
  - intros Hm. by apply elem_of_nil in Hm.
  - assert (∀ k, m ∈ Re.scan p k t →
                 ∃ pre post, c :: t = pre ++ m ++ post) as Hlater.
    { intros k (pre & post & ->)%IH. by exists (c :: pre), post. }
    destruct skip as [|k]; [|by apply Hlater].
    destruct (Re.match_here p (c :: t)) as [m'|] eqn:Hm'; [|by apply Hlater].
    intros [->|Hm]%elem_of_cons; [|by eapply Hlater].
    apply match_here_prefix in Hm' as [post Hpost]. by exists [], post.
Qed.

(** Matches do not overlap: each one uses up as many characters as the
    pattern has classes. *)
Lemma scan_length_bound (p : list Re.cls) (skip : nat) (t : str) :
  length (Re.scan p skip t) * length p ≤ length t - skip.
Proof.
  revert skip. induction t as [|c t IH]; intros skip; simpl; [lia|].
  destruct skip as [|k]; [|apply IH].
  destruct (Re.match_here p (c :: t)) as [m|] eqn:Hm.
  - pose proof (match_here_length _ _ _ Hm) as Hlen.
    apply match_here_prefix, prefix_length in Hm. simpl in Hm.
    specialize (IH (pred (length m))). simpl. lia.
  - specialize (IH 0). lia.
Qed.

(** The scan reports a match that no earlier match precedes. *)
Lemma scan_leftmost (p : list Re.cls) (pre t m : str) :
  (∀ i, i < length pre → Re.match_here p (drop i (pre ++ t)) = None) →
  Re.match_here p t = Some m → t ≠ [] →
  m ∈ Re.scan p 0 (pre ++ t).
Proof.
  intros Hnone Hm Ht. induction pre as [|c pre IH]; simpl.
  - destruct t as [|c t]; [done|]. simpl. rewrite Hm. left.
  - pose proof (Hnone 0 ltac:(simpl; lia)) as Hhere. simpl in Hhere.
    rewrite Hhere. apply IH.
    intros i Hi. apply (Hnone (S i)). simpl. lia.
Qed.

Lemma match_here_nric (m rest : str) :
  nric_shape m → Re.match_here NRIC_REGEX_PATTERN (m ++ rest) = Some m.
Proof.
  intros (a & ds & z & -> & Ha & Hlen & Hds & Hz1 & Hz2).
  repeat (destruct ds as [|? ds]; simpl in Hlen; try lia).
  repeat match goal with
         | HF : Forall _ (_ :: _) |- _ => apply Forall_cons in HF as [? HF]
         end.
  unfold NRIC_REGEX_PATTERN. simpl.
  rewrite bool_decide_eq_true_2 by done.
  repeat match goal with
         | HD : Re.decimal _ = true |- _ => rewrite HD; clear HD
         end.
  apply N.leb_le in Hz1, Hz2. by rewrite Hz1, Hz2.
Qed.

(** X1: every string the pattern detector returns occurs in the text it was
    given, as a run of consecutive characters. *)
Theorem find_nric_matches_substring (text : option str) (m : str) :
  m ∈ find_nric_matches text →
  ∃ t pre post, text = Some t ∧ t = pre ++ m ++ post.
Proof.
  unfold find_nric_matches. destruct text as [t|]; simpl.
  - destruct (str_truthy t); simpl.
    + rewrite elem_of_list_set. unfold Re.findall.
      intros (pre & post & ->)%scan_substring.
      by exists (pre ++ m ++ post), pre, post.
    + intros Hm. by apply elem_of_nil in Hm.
  - intros Hm. by apply elem_of_nil in Hm.
Qed.

(** X2: the matches of [re.findall] do not overlap, each is nine characters
    long, and the detector only drops duplicates: nine times the number of
    returned strings is at most the length of the text. *)
Theorem find_nric_matches_count (text : option str) :
  9 * length (find_nric_matches text) ≤ length (default [] text).
Proof.
  unfold find_nric_matches. destruct (negb (truthy text)); simpl; [lia|].
  pose proof (list_set_length
                (Re.findall NRIC_REGEX_PATTERN (default [] text))) as Hset.
  pose proof (scan_length_bound NRIC_REGEX_PATTERN 0 (default [] text))
    as Hscan.
  unfold Re.findall in *.
  change (length NRIC_REGEX_PATTERN) with 9 in Hscan. lia.
Qed.

(** X3: the leftmost match is always reported: a string of the NRIC shape
    is returned whenever the pattern matches at no position before it. *)
Theorem find_nric_matches_leftmost (pre m rest : str) :
  nric_shape m →
  (∀ i, i < length pre →
        Re.match_here NRIC_REGEX_PATTERN (drop i (pre ++ m ++ rest)) = None) →
  m ∈ find_nric_matches (Some (pre ++ m ++ rest)).
Proof.
  intros Hshape Hnone.
  assert (m ++ rest ≠ []) as Hne.
  { destruct Hshape as (a & ds & z & -> & _). done. }
  unfold find_nric_matches.
  assert (truthy (Some (pre ++ m ++ rest)) = true) as ->.
  { simpl. destruct pre; [|done]. simpl. by destruct (m ++ rest). }
  simpl. rewrite elem_of_list_set. unfold Re.findall.
  apply scan_leftmost; [done| |done]. by apply match_here_nric.
Qed.

End PatternDetectorScan.

Lemma find_nric_matches_substring_witness :
  ∃ t pre post,
    Some (lit "ID S1234567A.") = Some t ∧ t = pre ++ lit "S1234567A" ++ post.
Proof.
  apply (@find_nric_matches_substring ascii_digits
           (Some (lit "ID S1234567A."))).
  vm_compute. left.
Defined.

Lemma find_nric_matches_leftmost_witness :
  lit "S1234567A" ∈
  @find_nric_matches ascii_digits (Some (lit "ID " ++ lit "S1234567A" ++ lit ".")).
Proof.
  apply (@find_nric_matches_leftmost ascii_digits).
  - exists 83%N, (lit "1234567"), 65%N.
    split; [reflexivity|]. split; [vm_compute; left|].
    split; [reflexivity|]. split; [by repeat constructor|]. lia.
  - intros i Hi.
    do 3 (destruct i as [|i]; [vm_compute; reflexivity|]).
    vm_compute in Hi. lia.
Defined.

(** ** Text extractor: what a returned text looks like *)

Section ExtractorText.
Context `{!Pdfplumber}.

Lemma extract_pages_grows (pages : list plumber_page) (full_text t : str) :
  extract_pages pages full_text = Ok t → full_text `prefix_of` t.
Proof.
  revert full_text. induction pages as [|page pages IH]; intros acc; simpl.
  - by intros [= <-].
  - destruct (extract_text page) as [text|]; simpl; [|done].
    destruct (truthy text); [|by apply IH].
    intros Ht%IH. etrans; [|exact Ht]. by apply prefix_app_r.
Qed.

Lemma extract_pages_newline (pages : list plumber_page) (full_text t : str) :
  (full_text ≠ [] → ∃ t', full_text = t' ++ newline) →
  extract_pages pages full_text = Ok t →
  t ≠ [] → ∃ t', t = t' ++ newline.
Proof.
  revert full_text. induction pages as [|page pages IH]; intros acc Hacc; simpl.
  - by intros [= <-].
  - destruct (extract_text page) as [text|]; simpl; [|done].
    destruct (truthy text); [|by apply IH].
    apply IH. intros _. exists (acc ++ default [] text).
    by rewrite <- app_assoc.
Qed.

Lemma extract_pages_nothing (pages : list plumber_page) (full_text : str) :
  extract_pages pages full_text = Ok full_text ↔
  Forall (λ page, ∃ text, extract_text page = Ok text ∧ truthy text = false)
    pages.
Proof.
  induction pages as [|page pages IH]; simpl.
  - split; [constructor|done].
  - rewrite Forall_cons.
    destruct (extract_text page) as [text|]; simpl.
    + destruct (truthy text) eqn:Htext.
      * split.
        -- intros Hgrow%extract_pages_grows%prefix_length.
           rewrite !length_app in Hgrow. simpl in Hgrow. lia.
        -- intros [(text' & [= <-] & Hfalse) _]. congruence.
      * rewrite IH. split; [|by intros [_ ?]].
        intros Hrest. split; [by exists text|done].
    + split; [done|]. by intros [(text' & ? & _) _].
Qed.

Lemma extract_pages_includes (pages : list plumber_page) (full_text t : str)
    (page : plumber_page) (text : str) :
  extract_pages pages full_text = Ok t →
  page ∈ pages → extract_text page = Ok (Some text) → text ≠ [] →
  ∃ pre post, t = pre ++ (text ++ newline) ++ post.
Proof.
  intros Hrun Hin Hpage Htext. revert full_text Hrun.
  induction pages as [|page' pages IH]; intros acc; simpl.
  - by apply elem_of_nil in Hin.
  - apply elem_of_cons in Hin as [<-|Hin].
    + rewrite Hpage. simpl. destruct text as [|c text]; [done|]. simpl.
      intros [post ->]%extract_pages_grows.
      exists acc, post. by rewrite <- (app_assoc acc).
    + destruct (extract_text page') as [text'|]; simpl; [|done].
      destruct (truthy text'); by apply IH.
Qed.

Lemma extract_text_from_pdf_inv (fs : FS) (path : str) (t : str) :
  extract_text_from_pdf fs path = Ok (Some t) ↔
  path_exists fs path = true ∧
  ∃ pages, pdfplumber_open fs path = Ok pages ∧
           extract_pages pages [] = Ok t.
Proof.
  unfold extract_text_from_pdf.
  destruct (path_exists fs path); simpl.
  - destruct (pdfplumber_open fs path) as [pages|]; simpl.
    + destruct (extract_pages pages []) as [t'|] eqn:Hrun; simpl.
      * split.
        -- intros [= <-]. split; [done|]. by exists pages.
        -- intros [_ (pages' & [= <-] & Ht)]. congruence.
      * split; [done|]. intros [_ (pages' & [= <-] & Ht)]. congruence.
    + split; [done|]. by intros [_ (pages' & ? & _)].
  - split; [done|]. by intros [? _].
Qed.

(** X4: a text the extractor returns is empty or ends with a newline: every
    page with text is followed by one, the last page too. *)
Theorem extract_text_from_pdf_newline (fs : FS) (path : str) (t : str) :
  extract_text_from_pdf fs path = Ok (Some t) →
  t ≠ [] → ∃ t', t = t' ++ newline.
Proof.
  intros (_ & pages & _ & Hrun)%extract_text_from_pdf_inv.
  by apply (extract_pages_newline pages []).
Qed.

(** X5: the extractor returns the empty string exactly when the file exists,
    opens, and every page answers [None] or the empty string: the callers'
    test [if not extracted_text] on a readable document means that no page
    has text. *)
Theorem extract_text_from_pdf_empty (fs : FS) (path : str) :
  extract_text_from_pdf fs path = Ok (Some []) ↔
  path_exists fs path = true ∧
  ∃ pages, pdfplumber_open fs path = Ok pages ∧
    Forall (λ page, ∃ text, extract_text page = Ok text ∧
                            truthy text = false) pages.
Proof.
  rewrite extract_text_from_pdf_inv.
  split; intros [Hex (pages & Hopen & Hrun)]; (split; [done|]);
    exists pages; (split; [done|]); by apply (extract_pages_nothing pages []).
Qed.

(** X6: no page is left out: when the extractor returns a text, the text of
    every page that has one occurs in it, followed by a newline. *)
Theorem extract_text_from_pdf_includes (fs : FS) (path : str) (t : str)
    (pages : list plumber_page) (page : plumber_page) (text : str) :
  extract_text_from_pdf fs path = Ok (Some t) →
  pdfplumber_open fs path = Ok pages →
  page ∈ pages → extract_text page = Ok (Some text) → text ≠ [] →
  ∃ pre post, t = pre ++ (text ++ newline) ++ post.
Proof.
  intros (_ & pages' & Hopen & Hrun)%extract_text_from_pdf_inv Hpages.
  rewrite Hpages in Hopen. injection Hopen as <-.
  by apply (extract_pages_includes pages []).
Qed.

End ExtractorText.

Lemma extract_text_from_pdf_newline_witness :
  ∃ t', lit "page one" ++ newline ++ lit "page three" ++ newline
        = t' ++ newline.
Proof.
  apply (@extract_text_from_pdf_newline
           (fixed_plumber (Ok [Ok (Some (lit "page one")); Ok None;
                               Ok (Some (lit "page three"))]))
           {[ lit "in.pdf" := File [] ]} (lit "in.pdf")).
  - vm_compute. reflexivity.
  - discriminate.
Defined.

Lemma extract_text_from_pdf_empty_witness :
  @extract_text_from_pdf (fixed_plumber (Ok [Ok None; Ok (Some [])]))
    {[ lit "scan.pdf" := File [] ]} (lit "scan.pdf") = Ok (Some []).
Proof.
  apply (@extract_text_from_pdf_empty
           (fixed_plumber (Ok [Ok None; Ok (Some [])]))).
  split; [vm_compute; reflexivity|].
  exists [Ok None; Ok (Some [])]. split; [vm_compute; reflexivity|].
  repeat constructor.
  - by exists None.
  - by exists (Some []).
Defined.

Lemma extract_text_from_pdf_includes_witness :
  ∃ pre post,
    lit "page one" ++ newline ++ lit "page three" ++ newline
    = pre ++ (lit "page three" ++ newline) ++ post.
Proof.
  apply (@extract_text_from_pdf_includes
           (fixed_plumber (Ok [Ok (Some (lit "page one")); Ok None;
                               Ok (Some (lit "page three"))]))
           {[ lit "in.pdf" := File [] ]} (lit "in.pdf") _
           [Ok (Some (lit "page one")); Ok None; Ok (Some (lit "page three"))]
           (Ok (Some (lit "page three")))).
  - vm_compute. reflexivity.
  - vm_compute. reflexivity.
  - right. right. left.
  - reflexivity.
  - discriminate.
Defined.

(** ** Entity detector: exceptions *)

Section EntityDetectorErrors.
Context `{!Spacy}.

(** X7: the entity detector has no handler of its own: it raises exactly
    when the text is not empty and the model raises on it; on [None] and on
    the empty string the model is not called, so nothing can raise. *)
Theorem find_pii_entities_raises (text : option str) :
  find_pii_entities text = Raise ↔
  ∃ t, text = Some t ∧ t ≠ [] ∧ nlp t = Raise.
Proof.
  unfold find_pii_entities. destruct text as [[|c t]|]; simpl.
  - split; [done|]. by intros (t & [= <-] & Hne & _).
  - destruct (nlp (c :: t)) as [ents|] eqn:Hnlp; simpl.
    + split; [done|]. intros (t' & [= <-] & _ & Hraise). congruence.
    + split; [|done]. intros _. by exists (c :: t).
  - split; [done|]. by intros (t & ? & _).
Qed.

End EntityDetectorErrors.

Lemma find_pii_entities_raises_witness :
  @find_pii_entities (fixed_spacy Raise) (Some (lit "John Smith")) = Raise ∧
  @find_pii_entities (fixed_spacy Raise) (Some []) ≠ Raise.
Proof.
  split.
  - apply (@find_pii_entities_raises (fixed_spacy Raise)).
    exists (lit "John Smith"). split; [reflexivity|]. split; [|reflexivity].
    discriminate.
  - intros (t & Ht & Hne & _)%(@find_pii_entities_raises (fixed_spacy Raise)).
    injection Ht as <-. by apply Hne.
Defined.

(** ** Aggregator: order of the arguments, empty lists, size *)

Lemma elem_of_combine_pii (spacy_pii nric_pii : list str) (x : str) :
  x ∈ combine_pii spacy_pii nric_pii ↔ x ∈ spacy_pii ∨ x ∈ nric_pii.
Proof.
  unfold combine_pii.
  by rewrite elem_of_elements, elem_of_union, !elem_of_list_to_set.
Qed.

Lemma NoDup_combine_pii (spacy_pii nric_pii : list str) :
  NoDup (combine_pii spacy_pii nric_pii).
Proof. unfold combine_pii. apply NoDup_elements. Qed.

(** X8: the combined list does not depend on which detector comes first
    (up to the order of its elements); when one detector finds nothing it
    is the other detector's duplicate-free list; and it is never longer
    than the two lists together. *)
Theorem combine_pii_perm (spacy_pii nric_pii : list str) :
  combine_pii spacy_pii nric_pii ≡ₚ combine_pii nric_pii spacy_pii ∧
  (NoDup spacy_pii → combine_pii spacy_pii [] ≡ₚ spacy_pii) ∧
  (NoDup nric_pii → combine_pii [] nric_pii ≡ₚ nric_pii) ∧
  length (combine_pii spacy_pii nric_pii)
    ≤ length spacy_pii + length nric_pii.
Proof.
  split; [|split; [|split]].
  - apply NoDup_Permutation; [apply NoDup_combine_pii..|].
    intros x. rewrite !elem_of_combine_pii. tauto.
  - intros Hnd. apply NoDup_Permutation; [apply NoDup_combine_pii|done|].
    intros x. rewrite elem_of_combine_pii, elem_of_nil. tauto.
  - intros Hnd. apply NoDup_Permutation; [apply NoDup_combine_pii|done|].
    intros x. rewrite elem_of_combine_pii, elem_of_nil. tauto.
  - rewrite <- length_app. apply submseteq_length, NoDup_submseteq.
    + apply NoDup_combine_pii.
    + intros x. rewrite elem_of_combine_pii, elem_of_app. tauto.
Qed.

Lemma combine_pii_perm_witness :
  combine_pii [lit "John Smith"; lit "Singapore"] []
    ≡ₚ [lit "John Smith"; lit "Singapore"].
Proof.
  apply (combine_pii_perm [lit "John Smith"; lit "Singapore"] []).
  apply NoDup_cons. split.
  - intros Hin. apply elem_of_cons in Hin as [Hin|Hin]; [discriminate Hin|].
    by apply elem_of_nil in Hin.
  - apply NoDup_singleton.
Defined.

(** ** Redactor: in place, when it succeeds, what the loops keep *)

Lemma copyfile_ne `{!Os} (fs fs' : FS) (src dst : str) :
  copyfile fs src dst = Ok fs' → src ≠ dst.
Proof. unfold copyfile. by case_bool_decide. Qed.

Lemma write_file_spec (fs fs' : FS) (path : str) (b : bytes) :
  write_file fs path b = Ok fs' ↔
  fs !! path ≠ Some Dir ∧ fs' = <[path := File b]> fs.
Proof.
  unfold write_file. destruct (fs !! path) as [[]|] eqn:Hpath.
  - split; [by intros [= <-]|by intros [_ ->]].
  - split; [done|]. by intros [? _].
  - split; [by intros [= <-]|by intros [_ ->]].
Qed.

Section RedactorFrame.
Context `{!Fitz, !Os}.

Lemma fitz_open_inv (fs : FS) (path : str) (doc : list fitz_page) :
  fitz_open fs path = Ok doc ↔
  ∃ b, fs !! path = Some (File b) ∧ fitz_parse b = Ok doc.
Proof.
  unfold fitz_open. destruct (read_file fs path) as [b|] eqn:Hread; simpl.
  - apply read_file_inv in Hread. split; [by exists b|].
    intros (b' & Hb' & Hparse). congruence.
  - split; [done|]. intros (b & Hb%read_file_inv & _). congruence.
Qed.

Lemma fitz_open_exists (fs : FS) (path : str) (doc : list fitz_page) :
  fitz_open fs path = Ok doc → path_exists fs path = true.
Proof.
  intros (b & Hb & _)%fitz_open_inv. apply path_exists_true. by rewrite Hb.
Qed.

Lemma fitz_save_spec (fs fs' : FS) (name path : str) (doc : list fitz_page) :
  fitz_save fs name doc path = Ok fs' ↔
  path ≠ name ∧
  ∃ b, fitz_tobytes doc = Ok b ∧ can_save fs path = true ∧
       fs' = <[path := File b]> fs.
Proof.
  unfold fitz_save. case_bool_decide as Hname.
  - split; [done|]. by intros [? _].
  - destruct (fitz_tobytes doc) as [b|]; simpl.
    + destruct (can_save fs path); split.
      * intros [= <-]. split; [done|]. by exists b.
      * by intros [_ (b' & [= <-] & _ & ->)].
      * done.
      * by intros [_ (b' & _ & ? & _)].
    + split; [done|]. by intros [_ (b & ? & _)].
Qed.

(** The two branches of [if redactions_made > 0] save alike. *)
Lemma redact_save_branches (fs : FS) (input output : str)
    (doc : list fitz_page) (redactions_made : nat) :
  (if bool_decide (0 < redactions_made)
   then do fs <- fitz_save fs input doc output; Ok (fs, true)
   else do fs <- fitz_save fs input doc output; Ok (fs, true))
  = do fs <- fitz_save fs input doc output; Ok (fs, true).
Proof. by case_bool_decide. Qed.

Lemma redact_sensitive_text_nonempty (fs : FS) (input output : str)
    (text : str) (rest : list str) :
  path_exists fs input = true →
  redact_sensitive_text fs input output (text :: rest) =
  try (do doc <- fitz_open fs input;
       do r <- redact_pages doc (text :: rest) 0;
       do fs <- fitz_save fs input r.1 output; Ok (fs, true))
  except Ok (fs, false).
Proof.
  intros Hex. unfold redact_sensitive_text. rewrite Hex. simpl.
  destruct (fitz_open fs input) as [doc|]; simpl; [|done].
  destruct (redact_pages doc (text :: rest) 0) as [[doc' n]|]; simpl; [|done].
  by rewrite redact_save_branches.
Qed.

Lemma redact_sensitive_text_inv (fs fs' : FS) (input output : str)
    (targets : list str) (flag : bool) :
  redact_sensitive_text fs input output targets = Ok (fs', flag) →
  (flag = false ∧ fs' = fs) ∨
  (flag = true ∧ input ≠ output ∧
   ∃ b0 b, fs !! input = Some (File b0) ∧ fs' = <[output := File b]> fs).
Proof.
  destruct (path_exists fs input) eqn:Hex.
  - destruct targets as [|text rest].
    + unfold redact_sensitive_text. rewrite Hex. simpl.
      destruct (copyfile fs input output) as [fs1|] eqn:Hcopy; simpl;
        intros [= <- <-]; [|by left].
      right. split; [done|]. split; [by eapply copyfile_ne|].
      apply copyfile_inv in Hcopy as (b & Hsrc & ->). by exists b, b.
    + rewrite redact_sensitive_text_nonempty by done.
      destruct (fitz_open fs input) as [doc|] eqn:Hopen; simpl;
        [|intros [= <- <-]; by left].
      destruct (redact_pages doc (text :: rest) 0) as [[doc' n]|]; simpl;
        [|intros [= <- <-]; by left].
      destruct (fitz_save fs input doc' output) as [fs1|] eqn:Hsave; simpl;
        intros [= <- <-]; [|by left].
      apply fitz_save_spec in Hsave as (Hne & b & _ & _ & ->).
      apply fitz_open_inv in Hopen as (b0 & Hb0 & _).
      right. split; [done|]. split; [congruence|]. by exists b0, b.
  - unfold redact_sensitive_text. rewrite Hex. simpl.
    intros [= <- <-]. by left.
Qed.

Lemma redact_targets_count (page page' : fitz_page) (targets : list str)
    (n n' : nat) :
  redact_targets page targets n = Ok (page', n') → n ≤ n'.
Proof.
  revert page n. induction targets as [|text targets IH]; intros page n; simpl.
  - intros [= _ <-]. lia.
  - destruct (str_truthy text); simpl; [|apply IH].
    destruct (search_for page text) as [[|inst insts]|]; simpl;
      [apply IH| |done].
    destruct (add_redact_annot page inst) as [page1|]; simpl; [|done].
    destruct (add_annots page1 insts) as [page2|]; simpl; [|done].
    intros Hrest%IH. lia.
Qed.

Lemma redact_targets_no_match (page : fitz_page) (targets : list str)
    (n : nat) :
  (∀ text, text ∈ targets → text ≠ [] → search_for page text = Ok []) →
  redact_targets page targets n = Ok (page, n).
Proof.
  induction targets as [|text targets IH]; intros Hnone; simpl; [done|].
  destruct text as [|c text]; simpl.
  - apply IH. intros text Hin. apply Hnone. by right.
  - rewrite (Hnone (c :: text)) by (done || left). simpl.
    apply IH. intros text' Hin. apply Hnone. by right.
Qed.

Lemma redact_pages_no_match (doc doc' : list fitz_page) (targets : list str)
    (n : nat) :
  (∀ page text, page ∈ doc → text ∈ targets → text ≠ [] →
                search_for page text = Ok []) →
  Forall2 (λ page page', apply_redactions page = Ok page') doc doc' →
  redact_pages doc targets n = Ok (doc', n).
Proof.
  intros Hnone Happly.
  induction Happly as [|page page' doc doc' Hpage _ IH]; simpl; [done|].
  rewrite redact_targets_no_match
    by (intros text Hin; apply Hnone; [left|done]).
  simpl. rewrite Hpage. simpl. rewrite IH; [done|].
  intros page0 text Hin. apply Hnone. by right.
Qed.

(** X9: a file cannot be redacted in place: called with the output path
    equal to the input path the redactor reports failure for every target
    list and writes nothing ([shutil.copyfile] refuses to copy a file onto
    itself, and PyMuPDF refuses a save that is not incremental to the name
    the document was opened from); so a call that reports success had an
    output path other than the input path. *)
Theorem redact_never_in_place (fs : FS) (path : str) (targets : list str) :
  redact_sensitive_text fs path path targets = Ok (fs, false) ∧
  (∀ output fs',
     redact_sensitive_text fs path output targets = Ok (fs', true) →
     output ≠ path).
Proof.
  assert (redact_sensitive_text fs path path targets = Ok (fs, false))
    as Hplace.
  { destruct (path_exists fs path) eqn:Hex.
    - destruct targets as [|text rest].
      + unfold redact_sensitive_text, copyfile. rewrite Hex. simpl.
        by rewrite bool_decide_true.
      + rewrite redact_sensitive_text_nonempty by done.
        destruct (fitz_open fs path) as [doc|]; simpl; [|done].
        destruct (redact_pages doc (text :: rest) 0) as [[doc' n]|];
          simpl; [|done].
        unfold fitz_save. by rewrite bool_decide_true.
    - unfold redact_sensitive_text. by rewrite Hex. }
  split; [done|]. intros output fs' Hsuccess ->. congruence.
Qed.

(** X10: with targets to look for, the redactor reports success exactly
    when no step raised: PyMuPDF opens the input, the loop over pages and
    targets runs through, and the save of the resulting document to the
    output path returns; the file system is then the one the save left.
    Every exception on the way gives failure, whatever the number of
    redactions. *)
Theorem redact_success_iff (fs fs' : FS) (input output : str)
    (targets : list str) :
  targets ≠ [] →
  redact_sensitive_text fs input output targets = Ok (fs', true) ↔
  ∃ doc doc' n,
    fitz_open fs input = Ok doc ∧
    redact_pages doc targets 0 = Ok (doc', n) ∧
    fitz_save fs input doc' output = Ok fs'.
Proof.
  intros Htargets. destruct targets as [|text rest]; [done|]. clear Htargets.
  destruct (path_exists fs input) eqn:Hex.
  - rewrite redact_sensitive_text_nonempty by done.
    destruct (fitz_open fs input) as [doc|] eqn:Hopen; simpl.
    + destruct (redact_pages doc (text :: rest) 0) as [[doc' n]|] eqn:Hrun;
        simpl.
      * destruct (fitz_save fs input doc' output) as [fs1|] eqn:Hsave; simpl.
        -- split.
           ++ intros [= <-]. by exists doc, doc', n.
           ++ intros (doc0 & doc1 & n' & [= <-] & Hrun' & Hsave').
              rewrite Hrun in Hrun'. injection Hrun' as <- <-. congruence.
        -- split; [done|].
           intros (doc0 & doc1 & n' & [= <-] & Hrun' & Hsave').
           rewrite Hrun in Hrun'. injection Hrun' as <- <-. congruence.
      * split; [done|].
        intros (doc0 & doc1 & n' & [= <-] & Hrun' & _). congruence.
    + split; [done|]. by intros (doc0 & doc1 & n' & ? & _).
  - unfold redact_sensitive_text. rewrite Hex. simpl. split; [done|].
    intros (doc & ? & ? & Hopen%fitz_open_exists & _). congruence.
Qed.

(** X11: the page loop keeps the number of pages, and the count of
    redactions never goes down while it runs. *)
Theorem redact_pages_count (doc doc' : list fitz_page) (targets : list str)
    (n n' : nat) :
  redact_pages doc targets n = Ok (doc', n') →
  length doc' = length doc ∧ n ≤ n'.
Proof.
  revert doc' n. induction doc as [|page doc IH]; intros doc' n; simpl.
  - intros [= <- <-]. split; [done|lia].
  - destruct (redact_targets page targets n) as [[page1 n1]|] eqn:Htargets;
      simpl; [|done].
    destruct (apply_redactions page1) as [page2|]; simpl; [|done].
    destruct (redact_pages doc targets n1) as [[doc1 n2]|] eqn:Hrest;
      simpl; [|done].
    intros [= <- <-]. apply IH in Hrest as [Hlen Hle].
    apply redact_targets_count in Htargets. simpl. split; [congruence|lia].
Qed.

(** X12: when PyMuPDF opens the input, the target list is not empty, no
    target that is not the empty string occurs on any page and
    [apply_redactions] returns on every page, then no annotation is added:
    the document handed to the save consists of the pages as opened, each
    passed through [apply_redactions], and the redactor reports success
    exactly when that save returns. *)
Theorem redact_without_match (fs fs' : FS) (input output : str)
    (targets : list str) (doc doc' : list fitz_page) :
  targets ≠ [] →
  fitz_open fs input = Ok doc →
  (∀ page text, page ∈ doc → text ∈ targets → text ≠ [] →
                search_for page text = Ok []) →
  Forall2 (λ page page', apply_redactions page = Ok page') doc doc' →
  redact_sensitive_text fs input output targets = Ok (fs', true) ↔
  fitz_save fs input doc' output = Ok fs'.
Proof.
  intros Htargets Hopen Hnone Happly.
  destruct targets as [|text rest]; [done|].
  rewrite redact_sensitive_text_nonempty by (by eapply fitz_open_exists).
  rewrite Hopen. simpl.
  rewrite (redact_pages_no_match doc doc') by done. simpl.
  destruct (fitz_save fs input doc' output) as [fs1|]; simpl;
    split; congruence.
Qed.

End RedactorFrame.

Lemma redact_never_in_place_witness : lit "out.pdf" ≠ lit "in.pdf".
Proof.
  pose proof (@redact_never_in_place toy_fitz toy_os
                {[ lit "in.pdf" := File (lit "Bob met Bob") ]}
                (lit "in.pdf") [lit "Bob"]) as [_ Hout].
  apply (Hout (lit "out.pdf")
           (<[ lit "out.pdf" := File ([9608; 9608; 9608]%N ++ lit " met "
                                       ++ [9608; 9608; 9608]%N) ]>
              {[ lit "in.pdf" := File (lit "Bob met Bob") ]})).
  vm_compute. reflexivity.
Defined.

Example redact_in_place_demo :
  @redact_sensitive_text toy_fitz toy_os
    {[ lit "in.pdf" := File (lit "Bob met Bob") ]}
    (lit "in.pdf") (lit "in.pdf") [lit "Bob"]
  = Ok ({[ lit "in.pdf" := File (lit "Bob met Bob") ]}, false).
Proof. vm_compute. reflexivity. Qed.

Lemma redact_success_iff_witness :
  @redact_sensitive_text toy_fitz toy_os
    {[ lit "in.pdf" := File (lit "Bob met Bob") ]}
    (lit "in.pdf") (lit "out.pdf") [lit "Bob"]
  = Ok (<[ lit "out.pdf" := File ([9608; 9608; 9608]%N ++ lit " met "
                                   ++ [9608; 9608; 9608]%N) ]>
          {[ lit "in.pdf" := File (lit "Bob met Bob") ]}, true).
Proof.
  apply (@redact_success_iff toy_fitz toy_os); [discriminate|].
  exists [(lit "Bob met Bob", [])],
    [([9608; 9608; 9608]%N ++ lit " met " ++ [9608; 9608; 9608]%N, [])], 2.
  split; [vm_compute; reflexivity|]. split; vm_compute; reflexivity.
Defined.

Lemma redact_pages_count_witness :
  length [([9608; 9608; 9608]%N ++ lit " met " ++ [9608; 9608; 9608]%N,
           @nil (nat * nat))]
  = length [(lit "Bob met Bob", @nil (nat * nat))] ∧ 0 ≤ 2.
Proof.
  apply (@redact_pages_count toy_fitz [(lit "Bob met Bob", [])] _
           [lit "Bob"; []]).
  vm_compute. reflexivity.
Defined.

Lemma redact_without_match_witness :
  @redact_sensitive_text toy_fitz toy_os
    {[ lit "in.pdf" := File (lit "nothing to hide") ]}
    (lit "in.pdf") (lit "out.pdf") [[]; lit "Bob"]
  = Ok (<[ lit "out.pdf" := File (lit "nothing to hide") ]>
          {[ lit "in.pdf" := File (lit "nothing to hide") ]}, true).
Proof.
  apply (@redact_without_match toy_fitz toy_os _ _ _ _ _
           [(lit "nothing to hide", [])] [(lit "nothing to hide", [])]).
  - discriminate.
  - vm_compute. reflexivity.
  - intros page text Hpage Htext Hne.
    apply elem_of_cons in Hpage as [->|Hpage];
      [|by apply elem_of_nil in Hpage].
    apply elem_of_cons in Htext as [->|Htext]; [done|].
    apply elem_of_cons in Htext as [->|Htext];
      [|by apply elem_of_nil in Htext].
    vm_compute. reflexivity.
  - constructor; [vm_compute; reflexivity|constructor].
  - vm_compute. reflexivity.
Defined.

(** ** Request handler: temporary files and answers *)

Lemma path_join_suffix (a b : str) : ∃ dir, path_join a b = dir ++ b.
Proof.
  unfold path_join. repeat case_bool_decide.
  - by exists [].
  - by exists a.
  - exists (a ++ [sep]). by rewrite <- app_assoc.
Qed.

Lemma path_join_relative (a b : str) :
  head b ≠ Some sep →
  path_join a b =
  (if bool_decide (a = [] ∨ last a = Some sep) then a else a ++ [sep]) ++ b.
Proof.
  intros Hb. unfold path_join. rewrite bool_decide_false by done.
  case_bool_decide; [done|]. by rewrite <- app_assoc.
Qed.

Lemma head_app_suffix (unique_id suffix : str) :
  head unique_id ≠ Some sep → head suffix ≠ Some sep →
  head (unique_id ++ suffix) ≠ Some sep.
Proof. by destruct unique_id. Qed.

(** X13: temporary paths never collide: the input path of a request is
    never the output path of this or of another request, and two requests
    whose identifiers differ (and do not begin with the separator, as no
    UUID does) have different input paths and different output paths. *)
Theorem temp_paths_no_collision (TEMP_DIR id1 id2 : str) :
  path_join TEMP_DIR (id1 ++ lit "_input.pdf") ≠
  path_join TEMP_DIR (id2 ++ lit "_output_redacted.pdf") ∧
  (id1 ≠ id2 → head id1 ≠ Some sep → head id2 ≠ Some sep →
   path_join TEMP_DIR (id1 ++ lit "_input.pdf") ≠
   path_join TEMP_DIR (id2 ++ lit "_input.pdf") ∧
   path_join TEMP_DIR (id1 ++ lit "_output_redacted.pdf") ≠
   path_join TEMP_DIR (id2 ++ lit "_output_redacted.pdf")).
Proof.
  split.
  - destruct (path_join_suffix TEMP_DIR (id1 ++ lit "_input.pdf"))
      as [dir1 ->].
    destruct (path_join_suffix TEMP_DIR (id2 ++ lit "_output_redacted.pdf"))
      as [dir2 ->].
    change (lit "_output_redacted.pdf")
      with (lit "_output_re" ++ lit "dacted.pdf").
    rewrite !app_assoc. intros [_ Heq]%app_inj_2; [|reflexivity].
    vm_compute in Heq. discriminate Heq.
  - intros Hne Hid1 Hid2.
    rewrite !path_join_relative
      by (apply head_app_suffix; [done|vm_compute; discriminate]).
    split; intros Heq%app_inv_head%app_inv_tail; by apply Hne.
Qed.

Lemma temp_paths_no_collision_witness :
  path_join (lit "/srv/temp") (lit "1f0e" ++ lit "_output_redacted.pdf") ≠
  path_join (lit "/srv/temp") (lit "2a7c" ++ lit "_output_redacted.pdf").
Proof.
  eapply proj2.
  apply (temp_paths_no_collision (lit "/srv/temp") (lit "1f0e") (lit "2a7c"));
    vm_compute; discriminate.
Defined.

Section RequestHandlerAnswers.
Context `{!Pdfplumber, !Spacy, !Re.UnicodeData, !Fitz, !Os}.
Variable TEMP_DIR : str.

(** After the upload has been saved, either nothing is written and the
    outcome is an exception or an error body, or the output file is
    written and the outcome is the file response. *)
Lemma process_saved_upload_inv (fs fs' : FS) (tin tout filename : str)
    (r : res response) :
  process_saved_upload fs tin tout filename = (fs', r) →
  (fs' = fs ∧
   (r = Raise ∨
    (r = Ok (ErrorBody TempFileVanished) ∧ path_exists fs tin = false) ∨
    r = Ok (ErrorBody RedactionFailed))) ∨
  (tin ≠ tout ∧
   ∃ b, fs' = <[tout := File b]> fs ∧
        r = Ok (FileResponse tout (lit "application/pdf")
                  (lit "redacted_" ++ filename))).
Proof.
  unfold process_saved_upload.
  destruct (extract_text_from_pdf fs tin) as [text|];
    [|intros [= <- <-]; left; by eauto].
  destruct (negb (truthy text) && negb (path_exists fs tin)) eqn:Hvanished.
  { intros [= <- <-]. left. split; [done|]. right. left. split; [done|].
    apply andb_true_iff in Hvanished as [_ Hex].
    by apply negb_true_iff in Hex. }
  match goal with
  | |- context [match ?targets with Ok _ => _ | Raise => _ end] =>
      destruct targets as [all_pii_to_redact|]
  end; [|intros [= <- <-]; left; by eauto].
  destruct (redact_sensitive_text fs tin tout all_pii_to_redact)
    as [[fs1 flag]|] eqn:Hredact; [|intros [= <- <-]; left; by eauto].
  apply redact_sensitive_text_inv in Hredact
    as [[-> ->]|(-> & Hne & b0 & b & _ & ->)].
  - intros [= <- <-]. left. by eauto.
  - assert (path_exists (<[tout := File b]> fs) tout = true) as ->
        by (apply path_exists_true; by rewrite lookup_insert_eq).
    intros [= <- <-]. right. split; [done|]. by exists b.
Qed.

Lemma delete_upload (fs : FS) (tin : str) (upload : bytes) :
  delete tin (<[tin := File upload]> fs) = delete tin fs.
Proof.
  apply map_eq. intros path. destruct (decide (path = tin)) as [->|Hne].
  - by rewrite !lookup_delete_eq.
  - by rewrite !lookup_delete_ne, lookup_insert_ne.
Qed.

Lemma delete_upload_after_output (fs : FS) (tin tout : str)
    (upload b : bytes) :
  tin ≠ tout →
  delete tin (<[tout := File b]> (<[tin := File upload]> fs))
  = delete tin (<[tout := File b]> fs).
Proof.
  intros Hne. apply map_eq. intros path.
  destruct (decide (path = tin)) as [->|Hin].
  - by rewrite !lookup_delete_eq.
  - rewrite !lookup_delete_ne by done.
    destruct (decide (path = tout)) as [->|Hout].
    + by rewrite !lookup_insert_eq.
    + by rewrite !lookup_insert_ne.
Qed.

(** The three ways a request can end. *)
Lemma anonymize_pdf_endpoint_inv (fs : FS) (unique_id filename : str)
    (upload : bytes) :
  let tin := path_join TEMP_DIR (unique_id ++ lit "_input.pdf") in
  let tout := path_join TEMP_DIR (unique_id ++ lit "_output_redacted.pdf") in
  let out := anonymize_pdf_endpoint TEMP_DIR fs unique_id filename upload in
  (fs !! tin = Some Dir ∧ out = (fs, ErrorBody CouldNotSaveUpload)) ∨
  (fs !! tin ≠ Some Dir ∧ out.1 = delete tin fs ∧
   (out.2 = ErrorBody InternalServerError ∨
    out.2 = ErrorBody RedactionFailed)) ∨
  (fs !! tin ≠ Some Dir ∧
   ∃ b, out.1 = delete tin (<[tout := File b]> fs) ∧
        out.2 = FileResponse tout (lit "application/pdf")
                  (lit "redacted_" ++ filename)).
Proof.
  intros tin tout out. unfold out, anonymize_pdf_endpoint. fold tin tout.
  assert (fs !! tin = Some Dir ∨ fs !! tin ≠ Some Dir) as [Hdir|Hdir]
      by (destruct (fs !! tin) as [[]|]; [right|left|right]; done).
  - left. split; [done|]. unfold write_file. rewrite Hdir.
    assert (path_exists fs tin = true) as ->
        by (apply path_exists_true; by rewrite Hdir).
    unfold remove. by rewrite Hdir.
  - right. rewrite (write_file_ok fs tin upload) by done.
    set (fs1 := <[tin := File upload]> fs).
    assert (fs1 !! tin = Some (File upload)) as Hfs1
        by (unfold fs1; by rewrite lookup_insert_eq).
    destruct (process_saved_upload fs1 tin tout filename) as [fs2 r] eqn:Hrun.
    apply process_saved_upload_inv in Hrun
      as [[-> Hr]|(Hne & b & -> & ->)].
    + left. split; [done|].
      assert (path_exists fs1 tin = true) as Hex
          by (apply path_exists_true; by rewrite Hfs1).
      rewrite Hex. unfold remove. rewrite Hfs1. simpl.
      split; [apply delete_upload|].
      destruct Hr as [->|[[_ Hgone]| ->]]; [by left|congruence|by right].
    + right. split; [done|]. exists b.
      assert (<[tout := File b]> fs1 !! tin = Some (File upload)) as Hfs2
          by (by rewrite lookup_insert_ne).
      assert (path_exists (<[tout := File b]> fs1) tin = true) as ->
          by (apply path_exists_true; by rewrite Hfs2).
      unfold remove. rewrite Hfs2. simpl.
      split; [by apply delete_upload_after_output|done].
Qed.

(** X14: whatever happens to a request, the saved upload is gone when the
    handler returns: no file is left at the temporary input path (unless
    that path was a directory, so that the upload could not be saved). *)
Theorem endpoint_removes_upload (fs : FS) (unique_id filename : str)
    (upload : bytes) :
  let tin := path_join TEMP_DIR (unique_id ++ lit "_input.pdf") in
  fs !! tin ≠ Some Dir →
  (anonymize_pdf_endpoint TEMP_DIR fs unique_id filename upload).1 !! tin
  = None.
Proof.
  intros tin Hdir.
  destruct (anonymize_pdf_endpoint_inv fs unique_id filename upload)
    as [[Hdir' _]|[(_ & -> & _)|(_ & b & -> & _)]]; [done|..];
    apply lookup_delete_eq.
Qed.

(** X15: a request touches its own two temporary paths only: every other
    path of the file system is after the request as it was before. *)
Theorem endpoint_frame (fs : FS) (unique_id filename : str)
    (upload : bytes) (path : str) :
  path ≠ path_join TEMP_DIR (unique_id ++ lit "_input.pdf") →
  path ≠ path_join TEMP_DIR (unique_id ++ lit "_output_redacted.pdf") →
  (anonymize_pdf_endpoint TEMP_DIR fs unique_id filename upload).1 !! path
  = fs !! path.
Proof.
  intros Hin Hout.
  destruct (anonymize_pdf_endpoint_inv fs unique_id filename upload)
    as [[_ ->]|[(_ & -> & _)|(_ & b & -> & _)]].
  - done.
  - by rewrite lookup_delete_ne.
  - by rewrite lookup_delete_ne, lookup_insert_ne.
Qed.

(** X16: a file response always names the request's temporary output path
    as an [application/pdf] download called [redacted_<upload name>], and
    that path holds a regular file when the handler returns: the cleanup
    of the input does not remove it. *)
Theorem endpoint_file_response (fs : FS) (unique_id filename : str)
    (upload : bytes) (path media_type name : str) :
  let out := anonymize_pdf_endpoint TEMP_DIR fs unique_id filename upload in
  out.2 = FileResponse path media_type name →
  path = path_join TEMP_DIR (unique_id ++ lit "_output_redacted.pdf") ∧
  media_type = lit "application/pdf" ∧
  name = lit "redacted_" ++ filename ∧
  ∃ b, out.1 !! path = Some (File b).
Proof.
  intros out. unfold out.
  pose proof (temp_paths_distinct TEMP_DIR unique_id) as Hne.
  destruct (anonymize_pdf_endpoint_inv fs unique_id filename upload)
    as [[_ ->]|[(_ & _ & [-> | ->])|(_ & b & -> & ->)]]; try done.
  intros [= <- <- <-]. repeat (split; [done|]). exists b.
  by rewrite lookup_delete_ne, lookup_insert_eq.
Qed.

(** X17: two of the handler's error answers cannot occur in a run of the
    handler on its own: the saved upload cannot have vanished before the
    extraction, and a redaction that reported success has written the
    output file. *)
Theorem endpoint_unreachable_errors (fs : FS) (unique_id filename : str)
    (upload : bytes) :
  (anonymize_pdf_endpoint TEMP_DIR fs unique_id filename upload).2
    ≠ ErrorBody TempFileVanished ∧
  (anonymize_pdf_endpoint TEMP_DIR fs unique_id filename upload).2
    ≠ ErrorBody NoOutputGenerated.
Proof.
  destruct (anonymize_pdf_endpoint_inv fs unique_id filename upload)
    as [[_ ->]|[(_ & _ & [-> | ->])|(_ & b & _ & ->)]]; by split.
Qed.

(** X18: when the upload cannot be saved the handler answers with the
    save error, runs no later step and leaves the file system as it
    was. *)
Theorem endpoint_upload_not_saved (fs : FS) (unique_id filename : str)
    (upload : bytes) :
  fs !! path_join TEMP_DIR (unique_id ++ lit "_input.pdf") = Some Dir →
  anonymize_pdf_endpoint TEMP_DIR fs unique_id filename upload
  = (fs, ErrorBody CouldNotSaveUpload).
Proof.
  intros Hdir.
  destruct (anonymize_pdf_endpoint_inv fs unique_id filename upload)
    as [[_ ->]|[(Hdir' & _)|(Hdir' & _)]]; done.
Qed.

(** X19: an exception of the language model is not caught by the detector
    but by the handler: the answer is the internal-error body, no output
    file is written and the saved upload is removed. *)
Theorem endpoint_model_error (fs : FS) (unique_id filename : str)
    (upload : bytes) (text : str) :
  let tin := path_join TEMP_DIR (unique_id ++ lit "_input.pdf") in
  fs !! tin ≠ Some Dir →
  extract_text_from_pdf (<[tin := File upload]> fs) tin = Ok (Some text) →
  text ≠ [] → nlp text = Raise →
  anonymize_pdf_endpoint TEMP_DIR fs unique_id filename upload
  = (delete tin fs, ErrorBody InternalServerError).
Proof.
  intros tin Hdir Htext Hne Hraise.
  unfold anonymize_pdf_endpoint. fold tin.
  rewrite (write_file_ok fs tin upload) by done.
  unfold process_saved_upload. rewrite Htext.
  assert (truthy (Some text) = true) as -> by (by destruct text).
  simpl. unfold find_pii_entities.
  assert (truthy (Some text) = true) as -> by (by destruct text).
  simpl. rewrite Hraise. simpl.
  assert (path_exists (<[tin := File upload]> fs) tin = true) as ->
      by (apply path_exists_true; by rewrite lookup_insert_eq).
  unfold remove. rewrite lookup_insert_eq. by rewrite delete_upload.
Qed.

End RequestHandlerAnswers.

Lemma endpoint_removes_upload_witness :
  (@anonymize_pdf_endpoint
     (fixed_plumber (Ok [Ok (Some (lit "John Smith"))]))
     (fixed_spacy Raise) ascii_digits toy_fitz toy_os
     (lit "/srv/temp") ∅ (lit "1f0e") (lit "id.pdf") (lit "John Smith")).1
    !! path_join (lit "/srv/temp") (lit "1f0e" ++ lit "_input.pdf")
  = None.
Proof.
  apply (@endpoint_removes_upload
           (fixed_plumber (Ok [Ok (Some (lit "John Smith"))]))
           (fixed_spacy Raise) ascii_digits toy_fitz toy_os).
  vm_compute. discriminate.
Defined.

Lemma endpoint_frame_witness :
  (@anonymize_pdf_endpoint
     (fixed_plumber (Ok [Ok (Some (lit "John Smith"))]))
     (fixed_spacy (Ok [ {| span_text := lit "John Smith";
                          span_label_ := lit "PERSON" |} ]))
     ascii_digits toy_fitz toy_os
     (lit "/srv/temp") {[ lit "/srv/main.py" := File (lit "app") ]}
     (lit "1f0e") (lit "id.pdf") (lit "John Smith")).1
    !! lit "/srv/main.py"
  = ({[ lit "/srv/main.py" := File (lit "app") ]} : FS) !! lit "/srv/main.py".
Proof.
  apply (@endpoint_frame
           (fixed_plumber (Ok [Ok (Some (lit "John Smith"))]))
           (fixed_spacy (Ok [ {| span_text := lit "John Smith";
                                span_label_ := lit "PERSON" |} ]))
           ascii_digits toy_fitz toy_os); vm_compute; discriminate.
Defined.

Lemma endpoint_file_response_witness :
  lit "/srv/temp/1f0e_output_redacted.pdf"
  = path_join (lit "/srv/temp") (lit "1f0e" ++ lit "_output_redacted.pdf") ∧
  lit "application/pdf" = lit "application/pdf" ∧
  lit "redacted_id.pdf" = lit "redacted_" ++ lit "id.pdf" ∧
  ∃ b,
    (@anonymize_pdf_endpoint
       (fixed_plumber (Ok [Ok (Some (lit "John Smith"))]))
       (fixed_spacy (Ok [ {| span_text := lit "John Smith";
                            span_label_ := lit "PERSON" |} ]))
       ascii_digits toy_fitz toy_os
       (lit "/srv/temp") ∅ (lit "1f0e") (lit "id.pdf") (lit "John Smith")).1
      !! lit "/srv/temp/1f0e_output_redacted.pdf" = Some (File b).
Proof.
  apply (@endpoint_file_response
           (fixed_plumber (Ok [Ok (Some (lit "John Smith"))]))
           (fixed_spacy (Ok [ {| span_text := lit "John Smith";
                                span_label_ := lit "PERSON" |} ]))
           ascii_digits toy_fitz toy_os
           (lit "/srv/temp") ∅ (lit "1f0e") (lit "id.pdf") (lit "John Smith")).
  vm_compute. reflexivity.
Defined.

Lemma endpoint_upload_not_saved_witness :
  @anonymize_pdf_endpoint
    (fixed_plumber (Ok [Ok (Some (lit "John Smith"))]))
    (fixed_spacy (Ok [])) ascii_digits toy_fitz toy_os
    (lit "/srv/temp") {[ lit "/srv/temp/1f0e_input.pdf" := Dir ]}
    (lit "1f0e") (lit "id.pdf") (lit "John Smith")
  = ({[ lit "/srv/temp/1f0e_input.pdf" := Dir ]},
     ErrorBody CouldNotSaveUpload).
Proof.
  apply (@endpoint_upload_not_saved
           (fixed_plumber (Ok [Ok (Some (lit "John Smith"))]))
           (fixed_spacy (Ok [])) ascii_digits toy_fitz toy_os).
  vm_compute. reflexivity.
Defined.

Lemma endpoint_model_error_witness :
  @anonymize_pdf_endpoint
    (fixed_plumber (Ok [Ok (Some (lit "John Smith"))]))
    (fixed_spacy Raise) ascii_digits toy_fitz toy_os
    (lit "/srv/temp") ∅ (lit "1f0e") (lit "id.pdf") (lit "John Smith")
  = (delete (path_join (lit "/srv/temp") (lit "1f0e" ++ lit "_input.pdf")) ∅,
     ErrorBody InternalServerError).
Proof.
  apply (@endpoint_model_error
           (fixed_plumber (Ok [Ok (Some (lit "John Smith"))]))
           (fixed_spacy Raise) ascii_digits toy_fitz toy_os
           (lit "/srv/temp") ∅ (lit "1f0e") (lit "id.pdf") (lit "John Smith")
           (lit "John Smith" ++ newline)).
  - vm_compute. discriminate.
  - vm_compute. reflexivity.
  - discriminate.
  - reflexivity.
Defined.

(** ** Script *)

Section ScriptFacts.
Context `{!Pdfplumber, !Spacy, !Re.UnicodeData, !Fitz, !Os}.
Variable script_dir : str.

Lemma combine_pii_nil : combine_pii [] [] = [].
Proof.
  apply elem_of_nil_inv. intros x. rewrite elem_of_combine_pii, elem_of_nil.
  tauto.
Qed.

(** X20: the script writes nothing but the redacted file, and only when it
    ends with the summary that the anonymization completed: then a regular
    file is at [REDACTED_PDF_PATH], and with every other ending, a crash
    included, the file system is as it was. *)
Theorem main_writes_only_output (fs : FS) :
  let out := main script_dir fs in
  (∀ path, path ≠ REDACTED_PDF_PATH script_dir →
           out.1 !! path = fs !! path) ∧
  (out.2 ≠ Ok AnonymizationCompleted → out.1 = fs) ∧
  (out.2 = Ok AnonymizationCompleted →
   ∃ b, out.1 !! REDACTED_PDF_PATH script_dir = Some (File b)).
Proof.
  intros out. unfold out, main.
  destruct (extract_text_from_pdf fs (PDF_PATH script_dir)) as [text|];
    [|by repeat split].
  match goal with
  | |- context [match ?found with Ok _ => _ | Raise => _ end] =>
      destruct found as [[|t rest]|]
  end; [by destruct (truthy text)| |by repeat split].
  destruct (redact_sensitive_text fs (PDF_PATH script_dir)
              (REDACTED_PDF_PATH script_dir) (t :: rest))
    as [[fs1 flag]|] eqn:Hredact; [|by repeat split].
  apply redact_sensitive_text_inv in Hredact
    as [[-> ->]|(-> & _ & _ & b & _ & ->)]; simpl.
  - by repeat split.
  - split; [intros path Hpath; by rewrite lookup_insert_ne|].
    split; [done|]. intros _. exists b. by rewrite lookup_insert_eq.
Qed.

(** X21: unlike the request handler, the script does not call the redactor
    without targets: when no text is extracted, or when text is extracted
    and neither detector finds anything, it prints its summary and writes
    no output file; an exception of the language model ends the script
    with nothing written. *)
Theorem main_without_targets (fs : FS) (text : option str) :
  extract_text_from_pdf fs (PDF_PATH script_dir) = Ok text →
  (truthy text = false → main script_dir fs = (fs, Ok ExtractionFailed)) ∧
  (truthy text = true → find_pii_entities text = Ok [] →
   find_nric_matches text = [] →
   main script_dir fs = (fs, Ok NoPIIDetected)) ∧
  (truthy text = true → find_pii_entities text = Raise →
   main script_dir fs = (fs, Raise)).
Proof.
  intros Htext. unfold main. rewrite Htext.
  split; [by intros ->|]. split.
  - intros -> -> ->. simpl. by rewrite combine_pii_nil.
  - by intros -> ->.
Qed.

End ScriptFacts.

Lemma main_writes_only_output_witness :
  ∃ b,
    (@main (fixed_plumber (Ok [Ok (Some (lit "John Smith"))]))
       (fixed_spacy (Ok [ {| span_text := lit "John Smith";
                            span_label_ := lit "PERSON" |} ]))
       ascii_digits toy_fitz toy_os (lit "/app/logic")
       {[ lit "/app/logic/sample.pdf" := File (lit "John Smith") ]}).1
      !! REDACTED_PDF_PATH (lit "/app/logic") = Some (File b).
Proof.
  apply (@main_writes_only_output
           (fixed_plumber (Ok [Ok (Some (lit "John Smith"))]))
           (fixed_spacy (Ok [ {| span_text := lit "John Smith";
                                span_label_ := lit "PERSON" |} ]))
           ascii_digits toy_fitz toy_os (lit "/app/logic")
           {[ lit "/app/logic/sample.pdf" := File (lit "John Smith") ]}).
  vm_compute. reflexivity.
Defined.

Lemma main_without_targets_witness :
  @main (fixed_plumber (Ok [Ok (Some (lit "nothing to hide"))]))
    (fixed_spacy (Ok [ {| span_text := lit "nothing";
                         span_label_ := lit "CARDINAL" |} ]))
    ascii_digits toy_fitz toy_os (lit "/app/logic")
    {[ lit "/app/logic/sample.pdf" := File (lit "nothing to hide") ]}
  = ({[ lit "/app/logic/sample.pdf" := File (lit "nothing to hide") ]},
     Ok NoPIIDetected).
Proof.
  pose proof (@main_without_targets
                (fixed_plumber (Ok [Ok (Some (lit "nothing to hide"))]))
                (fixed_spacy (Ok [ {| span_text := lit "nothing";
                                     span_label_ := lit "CARDINAL" |} ]))
                ascii_digits toy_fitz toy_os (lit "/app/logic")
                {[ lit "/app/logic/sample.pdf"
                     := File (lit "nothing to hide") ]}
                (Some (lit "nothing to hide" ++ newline))) as Hmain.
  destruct Hmain as (_ & Hnone & _); [vm_compute; reflexivity|].
  apply Hnone; vm_compute; reflexivity.
Defined.

(** ** Saving the extracted text *)

Example utf8_encode_demo :
  utf8_encode (lit "a" ++ [233; 8364; 128512]%N)
  = Ok [97; 195; 169; 226; 130; 172; 240; 159; 152; 128]%N ∧
  utf8_encode (lit "a" ++ [55296]%N) = Raise.
Proof. split; vm_compute; reflexivity. Qed.

Section TextFileFacts.
Context `{!Os}.

(** X22: saving the text never raises and touches no path but the one it
    is given.  When the file cannot be opened for writing (a directory at
    the path, or the operating system refuses) nothing is written; when it
    can, the file holds the UTF-8 encoding of the text afterwards, or is
    left empty when the text cannot be encoded, whatever it held
    before. *)
Theorem save_text_to_file_spec (fs : FS) (text_content : str) (path : str) :
  (∀ other, other ≠ path →
            save_text_to_file fs text_content path !! other = fs !! other) ∧
  (fs !! path = Some Dir ∨ can_open_w fs path = false →
   save_text_to_file fs text_content path = fs) ∧
  (fs !! path ≠ Some Dir → can_open_w fs path = true →
   save_text_to_file fs text_content path !! path =
   Some (File (match utf8_encode text_content with
               | Ok b => b
               | Raise => []
               end))).
Proof.
  unfold save_text_to_file, open_w.
  destruct (can_open_w fs path) eqn:Hos.
  - destruct (write_file fs path []) as [fs1|] eqn:Hopen.
    + apply write_file_spec in Hopen as [Hdir ->].
      destruct (utf8_encode text_content) as [b|]; simpl.
      * rewrite (write_file_ok _ path b)
          by (rewrite lookup_insert_eq; discriminate).
        split; [intros other Hne; by rewrite !lookup_insert_ne|].
        split; [by intros [?|?]|]. intros _ _. by rewrite lookup_insert_eq.
      * split; [intros other Hne; by rewrite lookup_insert_ne|].
        split; [by intros [?|?]|]. intros _ _. by rewrite lookup_insert_eq.
    + split; [done|]. split; [done|]. intros Hdir.
      by rewrite (write_file_ok fs path []) in Hopen.
  - split; [done|]. split; [done|]. by intros _ ?.
Qed.

End TextFileFacts.

Lemma save_text_to_file_spec_witness :
  @save_text_to_file toy_os
    {[ lit "out.txt" := File (lit "old text") ]} [233%N] (lit "out.txt")
    !! lit "out.txt"
  = Some (File [195; 169]%N).
Proof.
  apply (@save_text_to_file_spec toy_os
           {[ lit "out.txt" := File (lit "old text") ]} [233%N]
           (lit "out.txt")).
  - vm_compute. discriminate.
  - reflexivity.
Defined.

(** A lone surrogate cannot be encoded: the file has been emptied by the
    [open] and stays empty. *)
Example save_text_to_file_surrogate :
  @save_text_to_file toy_os
    {[ lit "out.txt" := File (lit "old text") ]} [55296%N] (lit "out.txt")
  = {[ lit "out.txt" := File [] ]}.
Proof. vm_compute. reflexivity. Qed.

(** ** Request handler: from the detectors to the answer *)

Section RequestHandlerPipeline.
Context `{!Pdfplumber, !Spacy, !Re.UnicodeData, !Fitz, !Os}.
Variable TEMP_DIR : str.

(** X23: for an upload with text on which the language model answers, the
    handler runs the redactor once, on the saved upload and with the union
    of the two detectors' results; it answers with the output file when
    the redactor reports success and with the redaction error when it
    reports failure, and in both cases the saved upload is removed. *)
Theorem endpoint_with_text (fs fs2 : FS) (unique_id filename : str)
    (upload : bytes) (text : str) (spacy_pii : list str) (flag : bool) :
  let tin := path_join TEMP_DIR (unique_id ++ lit "_input.pdf") in
  let tout := path_join TEMP_DIR (unique_id ++ lit "_output_redacted.pdf") in
  let fs1 : FS := <[tin := File upload]> fs in
  fs !! tin ≠ Some Dir →
  extract_text_from_pdf fs1 tin = Ok (Some text) → text ≠ [] →
  find_pii_entities (Some text) = Ok spacy_pii →
  redact_sensitive_text fs1 tin tout
    (combine_pii spacy_pii (find_nric_matches (Some text))) = Ok (fs2, flag) →
  anonymize_pdf_endpoint TEMP_DIR fs unique_id filename upload
  = (delete tin fs2,
     if flag
     then FileResponse tout (lit "application/pdf")
            (lit "redacted_" ++ filename)
     else ErrorBody RedactionFailed).
Proof.
  intros tin tout fs1 Hdir Htext Hne Hspacy Hredact.
  unfold anonymize_pdf_endpoint. fold tin tout.
  rewrite (write_file_ok fs tin upload) by done. fold fs1.
  unfold process_saved_upload. rewrite Htext.
  assert (truthy (Some text) = true) as -> by (by destruct text).
  simpl. rewrite Hspacy. simpl. rewrite Hredact.
  assert (fs1 !! tin = Some (File upload)) as Hfs1
      by (unfold fs1; by rewrite lookup_insert_eq).
  apply redact_sensitive_text_inv in Hredact
    as [[-> ->]|(-> & Hio & b0 & b & _ & ->)].
  - assert (path_exists fs1 tin = true) as ->
        by (apply path_exists_true; by rewrite Hfs1).
    unfold remove. by rewrite Hfs1.
  - assert (path_exists (<[tout := File b]> fs1) tout = true) as ->
        by (apply path_exists_true; by rewrite lookup_insert_eq).
    assert (<[tout := File b]> fs1 !! tin = Some (File upload)) as Hfs2
        by (by rewrite lookup_insert_ne).
    assert (path_exists (<[tout := File b]> fs1) tin = true) as ->
        by (apply path_exists_true; by rewrite Hfs2).
    unfold remove. by rewrite Hfs2.
Qed.

End RequestHandlerPipeline.

(** A text PyMuPDF cannot open: the text is found by pdfplumber, the
    redactor fails, and the handler answers with the redaction error. *)
Lemma endpoint_with_text_witness :
  @anonymize_pdf_endpoint
    (fixed_plumber (Ok [Ok (Some (lit "ID S1234567A"))]))
    (fixed_spacy (Ok [])) ascii_digits toy_fitz toy_os
    (lit "/srv/temp") ∅ (lit "1f0e") (lit "id.pdf") []
  = (delete (path_join (lit "/srv/temp") (lit "1f0e" ++ lit "_input.pdf"))
       (<[ path_join (lit "/srv/temp") (lit "1f0e" ++ lit "_input.pdf")
             := File [] ]> ∅),
     ErrorBody RedactionFailed).
Proof.
  apply (@endpoint_with_text
           (fixed_plumber (Ok [Ok (Some (lit "ID S1234567A"))]))
           (fixed_spacy (Ok [])) ascii_digits toy_fitz toy_os
           (lit "/srv/temp") ∅ _ (lit "1f0e") (lit "id.pdf") []
           (lit "ID S1234567A" ++ newline) [] false).
  - vm_compute. discriminate.
  - vm_compute. reflexivity.
  - discriminate.
  - vm_compute. reflexivity.
  - vm_compute. reflexivity.
Defined.

Example main_redacts_demo :
  @main (fixed_plumber (Ok [Ok (Some (lit "Bob, ID S1234567A"))]))
    (fixed_spacy (Ok [ {| span_text := lit "Bob";
                         span_label_ := lit "PERSON" |} ]))
    ascii_digits toy_fitz toy_os (lit "/app/logic")
    {[ lit "/app/logic/sample.pdf" := File (lit "Bob, ID S1234567A") ]}
  = ({[ lit "/app/logic/sample.pdf" := File (lit "Bob, ID S1234567A");
        lit "/app/logic/sample_redacted.pdf"
          := File (replicate 3 9608%N ++ lit ", ID "
                     ++ replicate 9 9608%N) ]},
     Ok AnonymizationCompleted).
Proof. vm_compute. reflexivity. Qed.
